(** * x-mcp-server: media validation, rate limiting and tool dispatch

    A shallow embedding of [src/index.ts].  The asynchronous handlers are
    run to completion one at a time (no interleaving), so an [async]
    function becomes a state-and-exception computation over the part of
    the process it can touch:

    - [Outside]: the wall clock read by [Date.now()] and the log of the
      file-system probes, timers and remote-client requests issued so far;
    - [World]: [Outside] plus the module-level object [rateLimitResets].

    The file system, Node's [path] helpers and the remote client are
    external collaborators; they are bundled in the record [Env] and every
    statement quantifies over it. *)

From Stdlib Require Import ZArith Ascii String List Lia.
From stdpp Require Import base option strings gmap.

Local Open Scope string_scope.
Local Open Scope list_scope.
Local Open Scope Z_scope.

(** ** Thrown values *)

(** [ErrorCode] of the MCP SDK, restricted to the members the server uses;
    the numbers are the JSON-RPC ones the SDK assigns. *)
Inductive ErrorCode := InvalidRequest | MethodNotFound | InternalError.

Definition ErrorCode_value (c : ErrorCode) : Z :=
  match c with
  | InvalidRequest => -32600
  | MethodNotFound => -32601
  | InternalError => -32603
  end.

(** The [code] property of an error object: absent, a number (the remote
    client's HTTP status) or a string (Node's [ENOENT] and the like). *)
Inductive JsCode := CodeAbsent | CodeNum (n : Z) | CodeStr (s : string).

(** What a [throw] or a rejected promise carries.  Thrown values are error
    objects: a plain [Error] (possibly decorated with a [code]) or an
    [McpError], which the dispatcher tells apart with [instanceof]. *)
Inductive Thrown :=
| ErrorObject (code : JsCode) (message : string)
| McpError (code : ErrorCode) (message : string).

(** [new Error(message)] *)
Definition Error (message : string) : Thrown := ErrorObject CodeAbsent message.

Definition message_of (e : Thrown) : string :=
  match e with
  | ErrorObject _ m => m
  | McpError _ m => m
  end.

Definition code_of (e : Thrown) : JsCode :=
  match e with
  | ErrorObject c _ => c
  | McpError c _ => CodeNum (ErrorCode_value c)
  end.

(** [error?.code === 429]: strict equality with the number 429. *)
Definition code_is_429 (e : Thrown) : bool :=
  match code_of e with
  | CodeNum n => n =? 429
  | _ => false
  end.

Definition instanceof_McpError (e : Thrown) : bool :=
  match e with
  | McpError _ _ => true
  | ErrorObject _ _ => false
  end.

Inductive Result (A : Type) :=
| Ok (a : A)
| Throw (e : Thrown).
Arguments Ok {A} a.
Arguments Throw {A} e.

(** ** Computations with state and exceptions *)

Definition Eff (S A : Type) : Type := S -> Result A * S.

Definition ret {S A} (a : A) : Eff S A := fun s => (Ok a, s).

Definition throw {S A} (e : Thrown) : Eff S A := fun s => (Throw e, s).

Definition bind {S A B} (m : Eff S A) (k : A -> Eff S B) : Eff S B :=
  fun s =>
    match m s with
    | (Ok a, s') => k a s'
    | (Throw e, s') => (Throw e, s')
    end.

(** [try { m } catch (error) { h error }]: the state reached when [m]
    threw is kept, as in JavaScript. *)
Definition try_catch {S A} (m : Eff S A) (h : Thrown -> Eff S A) : Eff S A :=
  fun s =>
    match m s with
    | (Ok a, s') => (Ok a, s')
    | (Throw e, s') => h e s'
    end.

Notation "'let*' x ':=' m 'in' k" := (bind m (fun x => k))
  (at level 10, x pattern, m at level 100, k at level 200).
Notation "m ';;' k" := (bind m (fun _ => k))
  (at level 100, k at level 200, right associativity).

(** ** The outside world *)

Definition Json := string.
Definition Buffer := string.

(** The result of [mimeTypes[ext]] on an object literal: [undefined], the
    string stored under an own key, or a member inherited from
    [Object.prototype] (a function or object, never a string). *)
Inductive JsValue :=
| JsUndefined
| JsString (s : string)
| JsInherited (name : string).

(** Requests to the remote client, one constructor per call shape in the
    source, with the arguments that vary; the constant options
    ([tweet.fields], [expansions], [target], [additionalOwners]) are left
    out.  A reply's payload stands for the [data] field of the result. *)
Inductive RemoteCall :=
| HomeTimeline (max_results : Z)
| TweetText (text : string)
| TweetMedia (text : string) (media_id : string)
| ReplyText (text : string) (tweet_id : string)
| ReplyMedia (text : string) (tweet_id : string) (media_id : string)
| DeleteTweet (tweet_id : string)
| UploadImageMedia (bytes : Buffer) (mimeType : JsValue)
| UploadVideoMedia (bytes : Buffer) (mimeType : JsValue) (longVideo : bool).

Inductive Event :=
| EvStat (path : string)
| EvReadFile (path : string)
| EvTimeout (ms : Z)
| EvRemote (call : RemoteCall).

Record Stats := mkStats { isFile : bool; size : Z }.

(** How a remote request issued at a given instant ends: the time it took
    and the payload or rejection. *)
Record Reply := mkReply { elapsed : Z; outcome : Result Json }.

Record Env := mkEnv {
  resolve : string -> string;            (* path.resolve *)
  basename : string -> string;           (* path.basename *)
  toFixedMB : Z -> string;               (* (size / 1024 / 1024).toFixed(2) *)
  fs_stat : string -> option Stats;      (* None: stat rejects *)
  fs_readFile : string -> Result Buffer;
  remote : RemoteCall -> Z -> Reply;
  JSON_stringify : Json -> string        (* JSON.stringify(data, null, 2) *)
}.

Record Outside := mkOutside { clock : Z; log : list Event }.

Definition IO (A : Type) : Type := Eff Outside A.

Definition emit (ev : Event) : IO unit :=
  fun o => (Ok tt, mkOutside (clock o) (log o ++ [ev])).

(** [Date.now()] *)
Definition Date_now : IO Z := fun o => (Ok (clock o), o).

(** The longest delay a Node timer takes, in milliseconds. *)
Definition TIMEOUT_MAX : Z := 2147483647.

(** The delay a timer set for [ms] really has: Node replaces a delay below
    1 or above [TIMEOUT_MAX] by 1. *)
Definition timer_delay (ms : Z) : Z :=
  if (1 <=? ms) && (ms <=? TIMEOUT_MAX) then ms else 1.

(** [await new Promise(resolve => setTimeout(resolve, ms))]: the timer
    fires when its delay has elapsed. *)
Definition setTimeout (ms : Z) : IO unit :=
  fun o => (Ok tt, mkOutside (clock o + timer_delay ms) (log o ++ [EvTimeout ms])).

(** [stat] and [readFile] of [fs/promises]: logged, answered by the
    environment; a probe of the file system takes no time on the clock. *)
Definition stat (env : Env) (path : string) : IO Stats :=
  emit (EvStat path);;
  match fs_stat env path with
  | Some st => ret st
  | None => throw (ErrorObject (CodeStr "ENOENT") "no such file or directory")
  end.

Definition readFile (env : Env) (path : string) : IO Buffer :=
  emit (EvReadFile path);;
  match fs_readFile env path with
  | Ok b => ret b
  | Throw e => throw e
  end.

(** A request to the remote client: logged, answered by the environment
    at the instant it is issued, and the clock moves by the time it took. *)
Definition call_remote (env : Env) (call : RemoteCall) : IO Json :=
  fun o =>
    let r := remote env call (clock o) in
    (outcome r, mkOutside (clock o + elapsed r) (log o ++ [EvRemote call])).

(** ** Rate limiter *)

Inductive Endpoint := home | tweet | reply | delete.

#[global] Instance Endpoint_eq_dec : EqDecision Endpoint.
Proof. solve_decision. Defined.

(** The string an [Endpoint] literal is. *)
Definition endpoint_name (e : Endpoint) : string :=
  match e with
  | home => "home"
  | tweet => "tweet"
  | reply => "reply"
  | delete => "delete"
  end.

Record World := mkWorld { outside : Outside; rateLimitResets : gmap string Z }.

Definition M (A : Type) : Type := Eff World A.

(** The module-level initialiser of [rateLimitResets]. *)
Definition rateLimitResets_init : gmap string Z :=
  <["home" := 0]> (<["tweet" := 0]> (<["reply" := 0]> (<["delete" := 0]> ∅))).

Definition lift {A} (io : IO A) : M A :=
  fun w =>
    let '(r, o) := io (outside w) in
    (r, mkWorld o (rateLimitResets w)).

(** [rateLimitResets[endpoint]] *)
Definition get_reset (endpoint : Endpoint) : M (option Z) :=
  fun w => (Ok (rateLimitResets w !! endpoint_name endpoint), w).

(** [rateLimitResets[endpoint] = v] *)
Definition set_reset (endpoint : Endpoint) (v : Z) : M unit :=
  fun w => (Ok tt, mkWorld (outside w) (<[endpoint_name endpoint := v]> (rateLimitResets w))).

(** [now < resetTime], where a missing entry reads [undefined] and the
    comparison is then false. *)
Definition js_lt (now : Z) (resetTime : option Z) : bool :=
  match resetTime with
  | Some r => now <? r
  | None => false
  end.

Definition rate_limit_message (endpoint : Endpoint) : string :=
  "Rate limit exceeded for " +:+ endpoint_name endpoint +:+ ". Please try again in 15 minutes.".

Definition withRateLimit {T} (endpoint : Endpoint) (fn : IO T) : M T :=
  let* now := lift Date_now in
  let* resetTime := get_reset endpoint in
  (if js_lt now resetTime
   then
     let waitTime := default 0 resetTime - now + 1000 in
     lift (setTimeout waitTime)
   else ret tt);;
  try_catch
    (let* result := lift fn in
     set_reset endpoint (now + (15 * 60 * 1000));;
     ret result)
    (fun error =>
       if code_is_429 error
       then
         set_reset endpoint (now + (15 * 60 * 1000));;
         throw (McpError InvalidRequest (rate_limit_message endpoint))
       else throw error).

(** ** Strings and object literals, as the JavaScript runtime has them *)

(** [String.prototype.toLowerCase] on the ASCII letters; other characters
    are kept. *)
Definition lower_ascii (c : ascii) : ascii :=
  let n := N_of_ascii c in
  if ((65 <=? n) && (n <=? 90))%N then ascii_of_N (n + 32) else c.

Fixpoint toLowerCase (s : string) : string :=
  match s with
  | EmptyString => EmptyString
  | String c rest => String (lower_ascii c) (toLowerCase rest)
  end.

(** [s.split(sep)] for a one-character separator: never empty. *)
Fixpoint split (sep : ascii) (s : string) : list string :=
  match s with
  | EmptyString => [EmptyString]
  | String c rest =>
      if Ascii.eqb c sep then EmptyString :: split sep rest
      else
        match split sep rest with
        | seg :: segs => String c seg :: segs
        | [] => [String c EmptyString]
        end
  end.

(** [arr.pop()]: the last element, [undefined] on an empty array. *)
Definition pop (arr : list string) : option string := last arr.

(** [arr.join(sep)] *)
Fixpoint join (sep : string) (arr : list string) : string :=
  match arr with
  | [] => ""
  | [x] => x
  | x :: rest => x +:+ sep +:+ join sep rest
  end.

(** An object literal with string values, keys in insertion order. *)
Definition ObjectLiteral := list (string * string).

Fixpoint own_property (obj : ObjectLiteral) (key : string) : option string :=
  match obj with
  | [] => None
  | (k, v) :: rest => if String.eqb k key then Some v else own_property rest key
  end.

(** The property names every object literal inherits from
    [Object.prototype] (Node 20, the runtime the Dockerfile builds on). *)
Definition Object_prototype_names : list string :=
  [ "constructor"; "__defineGetter__"; "__defineSetter__"; "hasOwnProperty";
    "__lookupGetter__"; "__lookupSetter__"; "isPrototypeOf";
    "propertyIsEnumerable"; "toString"; "valueOf"; "__proto__";
    "toLocaleString" ].

(** [obj[key]]: own properties first, then the prototype. *)
Definition get_property (obj : ObjectLiteral) (key : string) : JsValue :=
  match own_property obj key with
  | Some v => JsString v
  | None =>
      if existsb (String.eqb key) Object_prototype_names
      then JsInherited key
      else JsUndefined
  end.

(** [Object.keys(obj)] *)
Definition Object_keys (obj : ObjectLiteral) : list string := map fst obj.

(** Truthiness of a string, of an optional string and of a looked-up
    property. *)
Definition truthy_string (s : string) : bool := negb (String.eqb s "").

Definition truthy (x : option string) : bool :=
  match x with
  | Some s => truthy_string s
  | None => false
  end.

Definition truthy_value (v : JsValue) : bool :=
  match v with
  | JsUndefined => false
  | JsString s => truthy_string s
  | JsInherited _ => true
  end.

(** ** Media upload *)

Definition image_mimeTypes : ObjectLiteral :=
  [ ("png", "image/png"); ("jpg", "image/jpeg"); ("jpeg", "image/jpeg");
    ("gif", "image/gif"); ("webp", "image/webp") ].

Definition video_mimeTypes : ObjectLiteral :=
  [ ("mp4", "video/mp4"); ("mov", "video/quicktime"); ("avi", "video/x-msvideo");
    ("webm", "video/webm"); ("m4v", "video/x-m4v") ].

Definition IMAGE_MAX_SIZE : Z := 5 * 1024 * 1024.
Definition VIDEO_MAX_SIZE : Z := 512 * 1024 * 1024.

(** [sanitizedPath.toLowerCase().split('.').pop()] *)
Definition extension (sanitizedPath : string) : option string :=
  pop (split "." (toLowerCase sanitizedPath)).

Definition uploadImage (env : Env) (imagePath : string) : IO string :=
  let sanitizedPath := resolve env imagePath in
  let* fileStats :=
    try_catch (stat env sanitizedPath)
      (fun _ => throw (Error ("File not found: " +:+ basename env sanitizedPath))) in
  (if negb (isFile fileStats)
   then throw (Error ("Path is not a file: " +:+ basename env sanitizedPath))
   else ret tt);;
  let MAX_SIZE := IMAGE_MAX_SIZE in
  (if MAX_SIZE <? size fileStats
   then throw (Error ("File size exceeds 5MB limit (" +:+ toFixedMB env (size fileStats) +:+ "MB)"))
   else ret tt);;
  let ext := extension sanitizedPath in
  let mimeTypes := image_mimeTypes in
  (if negb (truthy ext) || negb (truthy_value (get_property mimeTypes (default "" ext)))
   then
     let supported := join ", " (Object_keys mimeTypes) in
     throw (Error ("Unsupported file format. Supported formats: " +:+ supported))
   else ret tt);;
  let mimeType := get_property mimeTypes (default "" ext) in
  let* imageBuffer := readFile env sanitizedPath in
  call_remote env (UploadImageMedia imageBuffer mimeType).

Definition uploadVideo (env : Env) (videoPath : string) : IO string :=
  let sanitizedPath := resolve env videoPath in
  let* fileStats :=
    try_catch (stat env sanitizedPath)
      (fun _ => throw (Error ("File not found: " +:+ basename env sanitizedPath))) in
  (if negb (isFile fileStats)
   then throw (Error ("Path is not a file: " +:+ basename env sanitizedPath))
   else ret tt);;
  let MAX_SIZE := VIDEO_MAX_SIZE in
  (if MAX_SIZE <? size fileStats
   then throw (Error ("Video size exceeds 512MB limit (" +:+ toFixedMB env (size fileStats) +:+ "MB)"))
   else ret tt);;
  let ext := extension sanitizedPath in
  let mimeTypes := video_mimeTypes in
  (if negb (truthy ext) || negb (truthy_value (get_property mimeTypes (default "" ext)))
   then
     let supported := join ", " (Object_keys mimeTypes) in
     throw (Error ("Unsupported video format. Supported formats: " +:+ supported))
   else ret tt);;
  let mimeType := get_property mimeTypes (default "" ext) in
  let* videoBuffer := readFile env sanitizedPath in
  call_remote env
    (UploadVideoMedia videoBuffer mimeType (15 * 1024 * 1024 <? size fileStats)).

(** ** Tool dispatch *)

(** The tools advertised by the [ListToolsRequestSchema] handler: name,
    declared [maxLength] of the [text] property and required properties. *)
Record Tool := mkTool {
  tool_name : string;
  text_maxLength : option Z;
  required : list string
}.

Definition listTools : list Tool :=
  [ mkTool "get_home_timeline" None [];
    mkTool "create_tweet" (Some 280) ["text"];
    mkTool "reply_to_tweet" (Some 280) ["tweet_id"; "text"];
    mkTool "delete_tweet" None ["tweet_id"] ].

(** [request.params.arguments], read through the casts of the handler:
    [text] and [tweet_id] are typed as present, the others are optional;
    [limit] is an integer. *)
Record ToolArguments := mkArguments {
  limit : option Z;
  text : string;
  tweet_id : string;
  image_path : option string;
  video_path : option string
}.

Record CallToolRequest := mkRequest { name : string; arguments : ToolArguments }.

Record TextContent := mkContent { content_type : string; content_text : string }.

Definition ToolResponse := list TextContent.

Definition respond (env : Env) (data : Json) : ToolResponse :=
  [ mkContent "text" (JSON_stringify env data) ].

Definition get_home_timeline_case (env : Env) (args : ToolArguments) : M ToolResponse :=
  let limit := default 20 (limit args) in
  let* timeline :=
    withRateLimit home (call_remote env (HomeTimeline (Z.min limit 5))) in
  ret (respond env timeline).

Definition create_tweet_case (env : Env) (args : ToolArguments) : M ToolResponse :=
  let text := text args in
  let image_path := image_path args in
  let video_path := video_path args in
  (if truthy image_path && truthy video_path
   then throw (McpError InvalidRequest
     "Cannot attach both image and video to the same tweet. Please provide only one.")
   else ret tt);;
  let mediaId : option string := None in
  let* mediaId :=
    if truthy image_path
    then
      try_catch
        (let* id := lift (uploadImage env (default "" image_path)) in ret (Some id))
        (fun error => throw (McpError InvalidRequest
           ("Failed to upload image: " +:+ message_of error)))
    else ret mediaId in
  let* mediaId :=
    if truthy video_path
    then
      try_catch
        (let* id := lift (uploadVideo env (default "" video_path)) in ret (Some id))
        (fun error => throw (McpError InvalidRequest
           ("Failed to upload video: " +:+ message_of error)))
    else ret mediaId in
  let* posted :=
    withRateLimit tweet
      (if truthy mediaId
       then call_remote env (TweetMedia text (default "" mediaId))
       else call_remote env (TweetText text)) in
  ret (respond env posted).

Definition reply_to_tweet_case (env : Env) (args : ToolArguments) : M ToolResponse :=
  let tweet_id := tweet_id args in
  let text := text args in
  let image_path := image_path args in
  let video_path := video_path args in
  (if truthy image_path && truthy video_path
   then throw (McpError InvalidRequest
     "Cannot attach both image and video to the same reply. Please provide only one.")
   else ret tt);;
  let mediaId : option string := None in
  let* mediaId :=
    if truthy image_path
    then
      try_catch
        (let* id := lift (uploadImage env (default "" image_path)) in ret (Some id))
        (fun error => throw (McpError InvalidRequest
           ("Failed to upload image: " +:+ message_of error)))
    else ret mediaId in
  let* mediaId :=
    if truthy video_path
    then
      try_catch
        (let* id := lift (uploadVideo env (default "" video_path)) in ret (Some id))
        (fun error => throw (McpError InvalidRequest
           ("Failed to upload video: " +:+ message_of error)))
    else ret mediaId in
  let* replied :=
    withRateLimit reply
      (if truthy mediaId
       then call_remote env (ReplyMedia text tweet_id (default "" mediaId))
       else call_remote env (ReplyText text tweet_id)) in
  ret (respond env replied).

Definition delete_tweet_case (env : Env) (args : ToolArguments) : M ToolResponse :=
  let tweet_id := tweet_id args in
  let* deleted := withRateLimit delete (call_remote env (DeleteTweet tweet_id)) in
  ret (respond env deleted).

(** The [switch] on the tool name inside the [CallToolRequestSchema]
    handler. *)
Definition tool_switch (env : Env) (request : CallToolRequest) : M ToolResponse :=
  if String.eqb (name request) "get_home_timeline"
    then get_home_timeline_case env (arguments request)
  else if String.eqb (name request) "create_tweet"
    then create_tweet_case env (arguments request)
  else if String.eqb (name request) "reply_to_tweet"
    then reply_to_tweet_case env (arguments request)
  else if String.eqb (name request) "delete_tweet"
    then delete_tweet_case env (arguments request)
  else throw (McpError MethodNotFound ("Unknown tool: " +:+ name request)).

(** The [CallToolRequestSchema] handler: the switch inside its
    [try]/[catch]. *)
Definition callTool (env : Env) (request : CallToolRequest) : M ToolResponse :=
  try_catch
    (tool_switch env request)
    (fun error =>
       if instanceof_McpError error then throw error
       else throw (McpError InternalError ("Twitter API error: " +:+ message_of error))).

(** ** Sequential use of the rate limiter *)

(** One call in a run of the server: some time passes ([idle]), then
    [withRateLimit group operation] runs to completion. *)
Record Call (T : Type) := mkCall { idle : Z; group : Endpoint; operation : IO T }.
Arguments mkCall {T} idle group operation.
Arguments idle {T} c.
Arguments group {T} c.
Arguments operation {T} c.

Definition pass_time (ms : Z) (w : World) : World :=
  mkWorld (mkOutside (clock (outside w) + ms) (log (outside w))) (rateLimitResets w).

Definition run_call {T} (c : Call T) (w : World) : World :=
  snd (withRateLimit (group c) (operation c) (pass_time (idle c) w)).

Definition run_calls {T} (cs : list (Call T)) (w : World) : World :=
  fold_left (fun w c => run_call c w) cs w.

(** The process right after start-up at instant [t0]. *)
Definition start (t0 : Z) : World := mkWorld (mkOutside t0 []) rateLimitResets_init.

(** The state of the outside world in which [withRateLimit endpoint fn]
    starts [fn]: the entry state, after the throttling wait if there is
    one. *)
Definition started_in (endpoint : Endpoint) (w : World) : Outside :=
  let now := clock (outside w) in
  let resetTime := rateLimitResets w !! endpoint_name endpoint in
  if js_lt now resetTime
  then mkOutside (now + timer_delay (default 0 resetTime - now + 1000))
                 (log (outside w) ++ [EvTimeout (default 0 resetTime - now + 1000)])
  else outside w.

(** The cool-down written [15 * 60 * 1000] in the source, in milliseconds. *)
Definition fifteen_minutes : Z := 15 * 60 * 1000.

(** An operation that never turns the clock back. *)
Definition clock_monotone {T} (fn : IO T) : Prop :=
  forall o, clock o <= clock (snd (fn o)).

(** A call made as time goes: time passes forward before it and while its
    operation runs. *)
Definition well_behaved {T} (c : Call T) : Prop :=
  0 <= idle c /\ clock_monotone (operation c).

(** What holds of the process at every point of a sequential run started
    at instant [t0]: the clock has not gone back, and each group holds 0
    or a past reading of the clock plus the cool-down. *)
Definition stamped (t0 : Z) (now v : Z) : Prop :=
  v = 0 \/ exists t, t0 <= t <= now /\ v = t + fifteen_minutes.

Definition resets_inv (t0 : Z) (w : World) : Prop :=
  t0 <= clock (outside w) /\
  forall g, exists v,
    rateLimitResets w !! endpoint_name g = Some v /\
    stamped t0 (clock (outside w)) v.

(** The value stored for a group. *)
Definition reset_of (w : World) (endpoint : Endpoint) : option Z :=
  rateLimitResets w !! endpoint_name endpoint.

(** ** Reading the log *)

(** The requests sent to the remote client, in order. *)
Definition remote_calls (l : list Event) : list RemoteCall :=
  omap (fun ev => match ev with EvRemote call => Some call | _ => None end) l.

(** The paths probed with [stat], in order. *)
Definition stat_paths (l : list Event) : list string :=
  omap (fun ev => match ev with EvStat path => Some path | _ => None end) l.

(** The requests built around a tool's arguments. *)
Definition create_tweet_request (args : ToolArguments) : CallToolRequest :=
  mkRequest "create_tweet" args.

Definition reply_to_tweet_request (args : ToolArguments) : CallToolRequest :=
  mkRequest "reply_to_tweet" args.

Definition get_home_timeline_request (args : ToolArguments) : CallToolRequest :=
  mkRequest "get_home_timeline" args.

(** ** Serving requests one after the other *)

(** The endpoint literal each case of the switch passes to
    [withRateLimit]. *)
Definition tool_groups : list (string * Endpoint) :=
  [ ("get_home_timeline", home); ("create_tweet", tweet);
    ("reply_to_tweet", reply); ("delete_tweet", delete) ].

(** One request of a session: some time passes, then the handler runs to
    completion.  Its response or error goes to the transport; the process
    keeps the world it leaves. *)
Definition serve_one (env : Env) (idle_request : Z * CallToolRequest) (w : World) : World :=
  snd (callTool env (snd idle_request) (pass_time (fst idle_request) w)).

Definition serve (env : Env) (requests : list (Z * CallToolRequest)) (w : World) : World :=
  fold_left (fun w r => serve_one env r w) requests w.

(** A remote client whose requests never take negative time. *)
Definition remote_takes_time (env : Env) : Prop :=
  forall call t, 0 <= elapsed (remote env call t).

(** Where a run of a case can end: in a world [w1] that differs from the
    entry world only outside (uploads may have happened), or after one
    throttled remote request made from such a world. *)
Definition ends_at_limiter (env : Env) (g : Endpoint) (w w' : World) : Prop :=
  exists w1,
    rateLimitResets w1 = rateLimitResets w
    /\ (remote_takes_time env -> clock (outside w) <= clock (outside w1))
    /\ (w' = w1
        \/ exists call, w' = snd (withRateLimit g (call_remote env call) w1)).

(** The one remote request of an invocation that carries no attachment,
    with the group it is throttled under: what each case of the switch
    passes to [withRateLimit] when no upload comes first. *)
Definition plain_call (request : CallToolRequest) : option (Endpoint * RemoteCall) :=
  let args := arguments request in
  if String.eqb (name request) "get_home_timeline"
    then Some (home, HomeTimeline (Z.min (default 20 (limit args)) 5))
  else if String.eqb (name request) "create_tweet"
    then if truthy (image_path args) || truthy (video_path args) then None
         else Some (tweet, TweetText (text args))
  else if String.eqb (name request) "reply_to_tweet"
    then if truthy (image_path args) || truthy (video_path args) then None
         else Some (reply, ReplyText (text args) (tweet_id args))
  else if String.eqb (name request) "delete_tweet"
    then Some (delete, DeleteTweet (tweet_id args))
  else None.

(** The characters of a string. *)
Definition chars (s : string) : list ascii := list_ascii_of_string s.

(** The upper-case form of a lower-case ASCII letter; other characters are
    their own. *)
Definition upper_case (d : ascii) : ascii :=
  let n := N_of_ascii d in
  if ((97 <=? n) && (n <=? 122))%N then ascii_of_N (n - 32) else d.

(** [c] is the character [d] or its upper-case form. *)
Definition same_letter (c d : ascii) : Prop := c = d \/ c = upper_case d.

(** [s] spells [ext] up to the case of its letters: what a file name's
    suffix has to do to count as the extension [ext]. *)
Fixpoint spells_ignoring_case (s ext : string) : Prop :=
  match s, ext with
  | EmptyString, EmptyString => True
  | String c s', String d ext' => same_letter c d /\ spells_ignoring_case s' ext'
  | _, _ => False
  end.

(** The timers set, in order. *)
Definition timeouts (l : list Event) : list Z :=
  omap (fun ev => match ev with EvTimeout ms => Some ms | _ => None end) l.

(** ** A concrete environment

    A small file system and a scripted remote client, used to run the
    handlers on concrete requests. *)

Definition demo_stat (path : string) : option Stats :=
  if String.eqb path "/tmp/cat.PNG" then Some (mkStats true 2048)
  else if String.eqb path "/tmp/clip.mp4" then Some (mkStats true 4096)
  else if String.eqb path "/tmp/photo.constructor" then Some (mkStats true 1024)
  else if String.eqb path "/tmp/notes.txt" then Some (mkStats true 512)
  else if String.eqb path "/tmp" then Some (mkStats false 4096)
  else None.

Definition demo_readFile (path : string) : Result Buffer :=
  match demo_stat path with
  | Some _ => Ok ("bytes of " +:+ path)
  | None => Throw (ErrorObject (CodeStr "ENOENT") "no such file or directory")
  end.

Definition demo_post (text : string) : Reply :=
  if String.eqb text "throttled"
  then mkReply 120 (Throw (ErrorObject (CodeNum 429) "Too Many Requests"))
  else if String.eqb text "down"
  then mkReply 80 (Throw (ErrorObject (CodeNum 503) "Service Unavailable"))
  else mkReply 250 (Ok "{id: 1}").

Definition demo_remote (call : RemoteCall) (issued_at : Z) : Reply :=
  match call with
  | HomeTimeline _ => mkReply 300 (Ok "[]")
  | TweetText text => demo_post text
  | TweetMedia text _ => demo_post text
  | ReplyText text _ => demo_post text
  | ReplyMedia text _ _ => demo_post text
  | DeleteTweet _ => mkReply 200 (Ok "{deleted: true}")
  | UploadImageMedia _ _ => mkReply 400 (Ok "media-1")
  | UploadVideoMedia _ _ _ => mkReply 900 (Ok "media-2")
  end.

Definition demo_env : Env :=
  mkEnv (fun path => path) (fun path => path) (fun _ => "0.00")
        demo_stat demo_readFile demo_remote (fun data => data).

(** The instant the demo process starts at, in milliseconds since epoch. *)
Definition t_boot : Z := 1700000000000.

Definition post (text : string) : IO Json := call_remote demo_env (TweetText text).

(** A text of 281 characters. *)
Definition long_text : string := string_of_list_ascii (replicate 281 "a"%char).

(** A second file system, with large files, and a remote client that
    rejects every request with a plain error. *)
Definition archive_stat (path : string) : option Stats :=
  if String.eqb path "/data/raw.mov" then Some (mkStats true (600 * 1024 * 1024))
  else if String.eqb path "/data/talk.WebM" then Some (mkStats true (20 * 1024 * 1024))
  else if String.eqb path "/data/poster.jpeg" then Some (mkStats true (5 * 1024 * 1024))
  else None.

Definition archive_env : Env :=
  mkEnv (fun path => path) (fun path => path) (fun _ => "600.00")
        archive_stat
        (fun path => Ok ("bytes of " +:+ path))
        (fun _ _ => mkReply 700 (Throw (ErrorObject (CodeNum 401) "Unauthorized")))
        (fun data => data).

(** * Properties *)

(** ** The runtime helpers on concrete inputs *)

Example extension_upper_case : extension "/tmp/cat.PNG" = Some "png".
Proof. reflexivity. Qed.

Example extension_last_segment : extension "/srv/backup.tar.GZ" = Some "gz".
Proof. reflexivity. Qed.

Example extension_no_dot : extension "/tmp/README" = Some "/tmp/readme".
Proof. reflexivity. Qed.

Example extension_trailing_dot : extension "/tmp/file." = Some "".
Proof. reflexivity. Qed.

Example split_empty : split "." "" = [""].
Proof. reflexivity. Qed.

Example image_keys_joined :
  join ", " (Object_keys image_mimeTypes) = "png, jpg, jpeg, gif, webp".
Proof. reflexivity. Qed.

Example video_keys_joined :
  join ", " (Object_keys video_mimeTypes) = "mp4, mov, avi, webm, m4v".
Proof. reflexivity. Qed.

Example get_property_own : get_property image_mimeTypes "jpg" = JsString "image/jpeg".
Proof. reflexivity. Qed.

Example get_property_missing : get_property image_mimeTypes "txt" = JsUndefined.
Proof. reflexivity. Qed.

Example get_property_inherited :
  get_property image_mimeTypes "constructor" = JsInherited "constructor".
Proof. reflexivity. Qed.

(** [split] never returns an empty array, so [pop] always finds a last
    segment. *)
Lemma split_nonempty (sep : ascii) (s : string) : split sep s <> [].
Proof.
  induction s as [| c rest IH]; cbn; [discriminate |].
  destruct (Ascii.eqb c sep); [discriminate |].
  destruct (split sep rest); [contradiction | discriminate].
Qed.

Lemma extension_is_some (path : string) : exists ext, extension path = Some ext.
Proof.
  unfold extension, pop.
  destruct (split "." (toLowerCase path)) as [| seg segs] eqn:Hsplit.
  - exfalso. exact (split_nonempty _ _ Hsplit).
  - clear Hsplit. revert seg.
    induction segs as [| seg' segs IH]; intros seg; [exists seg; reflexivity |].
    destruct (IH seg') as [ext Hext]. exists ext. exact Hext.
Qed.

(** ** The rate limiter, step by step *)

(** What one call of [withRateLimit] does, in terms of the run of the
    operation it wraps. *)
Lemma withRateLimit_unfold {T} (endpoint : Endpoint) (fn : IO T) (w : World) :
  withRateLimit endpoint fn w =
  let now := clock (outside w) in
  match fn (started_in endpoint w) with
  | (Ok result, o') =>
      (Ok result,
       mkWorld o' (<[endpoint_name endpoint := now + fifteen_minutes]> (rateLimitResets w)))
  | (Throw error, o') =>
      if code_is_429 error
      then (Throw (McpError InvalidRequest (rate_limit_message endpoint)),
            mkWorld o' (<[endpoint_name endpoint := now + fifteen_minutes]> (rateLimitResets w)))
      else (Throw error, mkWorld o' (rateLimitResets w))
  end.
Proof.
  unfold withRateLimit, started_in, bind, try_catch, lift, get_reset, set_reset,
    Date_now, setTimeout, ret, throw, fifteen_minutes.
  destruct w as [o resets]; cbn [outside rateLimitResets].
  destruct (js_lt (clock o) (resets !! endpoint_name endpoint)); cbn.
  - destruct (fn _) as [[result | error] o']; cbn; [reflexivity |].
    destruct (code_is_429 error); reflexivity.
  - destruct (fn o) as [[result | error] o']; cbn; [reflexivity |].
    destruct (code_is_429 error); reflexivity.
Qed.

Lemma code_is_429_true (error : Thrown) :
  code_of error = CodeNum 429 -> code_is_429 error = true.
Proof. unfold code_is_429. intros ->. reflexivity. Qed.

Lemma code_is_429_false (error : Thrown) :
  code_of error <> CodeNum 429 -> code_is_429 error = false.
Proof.
  unfold code_is_429. destruct (code_of error) as [| n | s]; try reflexivity.
  intros Hne. apply Z.eqb_neq. congruence.
Qed.

Lemma endpoint_name_inj (g g' : Endpoint) :
  endpoint_name g = endpoint_name g' -> g = g'.
Proof. destruct g, g'; cbn; intros H; try reflexivity; discriminate H. Qed.

(** A timer always takes at least one millisecond, and the requested delay
    when that is between 1 and [TIMEOUT_MAX]. *)
Lemma timer_delay_positive (ms : Z) : 1 <= timer_delay ms.
Proof.
  unfold timer_delay.
  destruct (1 <=? ms) eqn:Hlow; cbn [andb]; [| lia].
  destruct (ms <=? TIMEOUT_MAX); [apply Z.leb_le in Hlow; lia | lia].
Qed.

Lemma timer_delay_in_range (ms : Z) :
  1 <= ms <= TIMEOUT_MAX -> timer_delay ms = ms.
Proof.
  intros [Hlow Hhigh]. unfold timer_delay.
  apply Z.leb_le in Hlow, Hhigh. rewrite Hlow, Hhigh. reflexivity.
Qed.

(** The instant at which the wrapped operation starts is never before the
    instant read on entry. *)
Lemma started_in_clock (endpoint : Endpoint) (w : World) :
  clock (outside w) <= clock (started_in endpoint w).
Proof.
  unfold started_in, js_lt.
  destruct (rateLimitResets w !! endpoint_name endpoint) as [r |]; cbn [default from_option];
    [| cbn; lia].
  destruct (clock (outside w) <? r) eqn:Hlt; cbn [clock]; [| lia].
  pose proof (timer_delay_positive (id r - clock (outside w) + 1000)). lia.
Qed.

(** A call stores, for each group, either what was there or the entry
    instant plus the cool-down, the latter only for its own group. *)
Lemma withRateLimit_reset {T} (endpoint g : Endpoint) (fn : IO T) (w : World) :
  reset_of (snd (withRateLimit endpoint fn w)) g = reset_of w g \/
  (g = endpoint /\
   reset_of (snd (withRateLimit endpoint fn w)) g
   = Some (clock (outside w) + fifteen_minutes)).
Proof.
  rewrite withRateLimit_unfold. unfold reset_of. cbn zeta.
  destruct (fn _) as [[result | error] o']; cbn.
  - destruct (decide (endpoint = g)) as [-> | Hne].
    + right. split; [reflexivity |]. apply lookup_insert_eq.
    + left. apply lookup_insert_ne. intros H. apply Hne, endpoint_name_inj, H.
  - destruct (code_is_429 error); cbn; [| left; reflexivity].
    destruct (decide (endpoint = g)) as [-> | Hne].
    + right. split; [reflexivity |]. apply lookup_insert_eq.
    + left. apply lookup_insert_ne. intros H. apply Hne, endpoint_name_inj, H.
Qed.

Lemma withRateLimit_clock {T} (endpoint : Endpoint) (fn : IO T) (w : World) :
  clock_monotone fn ->
  clock (outside w) <= clock (outside (snd (withRateLimit endpoint fn w))).
Proof.
  intros Hfn. rewrite withRateLimit_unfold. cbn zeta.
  pose proof (started_in_clock endpoint w) as Hs.
  pose proof (Hfn (started_in endpoint w)) as Hm.
  destruct (fn _) as [[result | error] o']; cbn in *; [lia |].
  destruct (code_is_429 error); cbn; lia.
Qed.

(** ** The invariant of sequential runs *)

Lemma resets_inv_start (t0 : Z) : resets_inv t0 (start t0).
Proof.
  split; [cbn; lia |].
  intros g. exists 0. split; [| left; reflexivity].
  destruct g; reflexivity.
Qed.

Lemma stamped_later (t0 now now' v : Z) :
  now <= now' -> stamped t0 now v -> stamped t0 now' v.
Proof.
  intros Hle [-> | (t & Ht & ->)]; [left; reflexivity |].
  right. exists t. split; [lia | reflexivity].
Qed.

Lemma resets_inv_pass_time (t0 ms : Z) (w : World) :
  0 <= ms -> resets_inv t0 w -> resets_inv t0 (pass_time ms w).
Proof.
  intros Hms [Hclock Hall]. split; [cbn; lia |].
  intros g. destruct (Hall g) as (v & Hv & Hst).
  exists v. split; [exact Hv |].
  apply (stamped_later t0 (clock (outside w))); [cbn; lia | exact Hst].
Qed.

Lemma resets_inv_withRateLimit {T} (t0 : Z) (endpoint : Endpoint) (fn : IO T)
      (w : World) :
  clock_monotone fn -> resets_inv t0 w ->
  resets_inv t0 (snd (withRateLimit endpoint fn w)).
Proof.
  intros Hfn [Hclock Hall].
  pose proof (withRateLimit_clock endpoint fn w Hfn) as Hlater.
  split; [lia |].
  intros g. destruct (Hall g) as (v & Hv & Hst).
  destruct (withRateLimit_reset endpoint g fn w) as [Hsame | [_ Hnew]];
    unfold reset_of in *.
  - exists v. split; [congruence |].
    apply (stamped_later t0 (clock (outside w))); assumption.
  - exists (clock (outside w) + fifteen_minutes). split; [exact Hnew |].
    right. exists (clock (outside w)). split; [lia | reflexivity].
Qed.

Lemma resets_inv_run_call {T} (t0 : Z) (c : Call T) (w : World) :
  well_behaved c -> resets_inv t0 w -> resets_inv t0 (run_call c w).
Proof.
  intros [Hidle Hfn] Hinv. unfold run_call.
  apply resets_inv_withRateLimit; [exact Hfn |].
  apply resets_inv_pass_time; assumption.
Qed.

Lemma resets_inv_run_calls {T} (t0 : Z) (cs : list (Call T)) (w : World) :
  Forall well_behaved cs -> resets_inv t0 w -> resets_inv t0 (run_calls cs w).
Proof.
  intros Hcs. revert w.
  induction Hcs as [| c cs Hc _ IH]; intros w Hinv; cbn; [exact Hinv |].
  apply IH, resets_inv_run_call; assumption.
Qed.

(** Under the invariant one more call never lowers a stored value. *)
Lemma run_call_monotone {T} (t0 : Z) (c : Call T) (w : World) (g : Endpoint)
      (v v' : Z) :
  0 <= t0 -> well_behaved c -> resets_inv t0 w ->
  reset_of w g = Some v -> reset_of (run_call c w) g = Some v' -> v <= v'.
Proof.
  intros Ht0 [Hidle Hfn] [Hclock Hall] Hv Hv'.
  destruct (Hall g) as (v0 & Hv0 & Hst).
  unfold reset_of in Hv. rewrite Hv in Hv0. injection Hv0 as <-.
  unfold run_call in Hv'.
  destruct (withRateLimit_reset (group c) g (operation c) (pass_time (idle c) w))
    as [Hsame | [_ Hnew]].
  - rewrite Hsame in Hv'. unfold reset_of in Hv'. cbn in Hv'.
    rewrite Hv in Hv'. injection Hv' as <-. lia.
  - rewrite Hnew in Hv'. injection Hv' as <-. cbn.
    destruct Hst as [-> | (t & Ht & ->)]; unfold fifteen_minutes; lia.
Qed.

Lemma call_remote_monotone (env : Env) (call : RemoteCall) :
  (forall t, 0 <= elapsed (remote env call t)) ->
  clock_monotone (call_remote env call).
Proof. intros H o. cbn. specialize (H (clock o)). lia. Qed.

Lemma post_monotone (text : string) : clock_monotone (post text).
Proof.
  apply call_remote_monotone. intros t. cbn. unfold demo_post.
  destruct (String.eqb text "throttled"); [cbn; lia |].
  destruct (String.eqb text "down"); cbn; lia.
Qed.

(** ** Rate limiter: the claims *)

(** What the [catch] branch does on a failure that carries the number
    429, in terms of the instant read on entry: that instant plus 15
    minutes is stored, and the error thrown is an [McpError] of class
    [InvalidRequest] whose message names the group and the 15-minute
    window. *)
Theorem withRateLimit_too_many_requests {T} (g : Endpoint) (fn : IO T)
        (w : World) (error : Thrown) (o' : Outside) :
  fn (started_in g w) = (Throw error, o') ->
  code_of error = CodeNum 429 ->
  withRateLimit g fn w
  = (Throw (McpError InvalidRequest
       ("Rate limit exceeded for " +:+ endpoint_name g
        +:+ ". Please try again in 15 minutes.")),
     mkWorld o' (<[endpoint_name g := clock (outside w) + fifteen_minutes]>
                   (rateLimitResets w)))
  /\ reset_of (snd (withRateLimit g fn w)) g
     = Some (clock (outside w) + fifteen_minutes).
Proof.
  intros Hrun Hcode. rewrite withRateLimit_unfold. cbn zeta.
  rewrite Hrun, (code_is_429_true error Hcode). split; [reflexivity |].
  unfold reset_of. cbn. apply lookup_insert_eq.
Qed.

Lemma withRateLimit_too_many_requests_witness :
  withRateLimit tweet (post "throttled") (start t_boot)
  = (Throw (McpError InvalidRequest
       ("Rate limit exceeded for " +:+ endpoint_name tweet
        +:+ ". Please try again in 15 minutes.")),
     mkWorld (mkOutside (t_boot + 120) [EvRemote (TweetText "throttled")])
             (<[endpoint_name tweet := clock (outside (start t_boot)) + fifteen_minutes]>
                (rateLimitResets (start t_boot))))
  /\ reset_of (snd (withRateLimit tweet (post "throttled") (start t_boot))) tweet
     = Some (clock (outside (start t_boot)) + fifteen_minutes).
Proof.
  apply (withRateLimit_too_many_requests tweet (post "throttled") (start t_boot)
           (ErrorObject (CodeNum 429) "Too Many Requests")).
  - reflexivity.
  - reflexivity.
Defined.

(** C1, evaluated.  Two calls on [tweet] in a row from start-up; the first
    succeeds after 250 ms, the second is rejected with 429 after 120 ms.
    The second call enters at [t_boot + 250], waits, and is rejected at
    [t_boot + 901120].  It fails with the [InvalidRequest] error that
    names [tweet] and the 15-minute window, as the claim says; but the
    instant it stores is the entry instant plus 15 minutes,
    [t_boot + 900250], not the instant of the rejection plus 15 minutes.
    That instant is already past when the call returns: a third call made
    at once sets no timer and reaches the remote client 250 ms later. *)
Theorem withRateLimit_429_stores_entry_instant :
  let w1 := run_call (mkCall 0 tweet (post "hello")) (start t_boot) in
  let w2 := snd (withRateLimit tweet (post "throttled") w1) in
  let w3 := snd (withRateLimit tweet (post "hello") w2) in
  fst (withRateLimit tweet (post "throttled") w1)
  = Throw (McpError InvalidRequest
             "Rate limit exceeded for tweet. Please try again in 15 minutes.")
  /\ clock (outside w1) = t_boot + 250
  /\ clock (outside w2) = t_boot + 901120
  /\ reset_of w2 tweet = Some (t_boot + 250 + fifteen_minutes)
  /\ reset_of w2 tweet <> Some (clock (outside w2) + fifteen_minutes)
  /\ t_boot + 250 + fifteen_minutes < clock (outside w2)
  /\ timeouts (log (outside w3)) = timeouts (log (outside w2))
  /\ remote_calls (log (outside w3))
     = remote_calls (log (outside w2)) ++ [TweetText "hello"]
  /\ clock (outside w3) = clock (outside w2) + 250.
Proof. vm_compute. intuition congruence. Qed.

(** C2.  For every endpoint group [g] and every operation that fails with
    an error not carrying the numeric code 429, [withRateLimit g operation]
    fails with that very error and leaves [rateLimitResets] as it was. *)
Theorem withRateLimit_other_failure {T} (g : Endpoint) (fn : IO T)
        (w : World) (error : Thrown) (o' : Outside) :
  fn (started_in g w) = (Throw error, o') ->
  code_of error <> CodeNum 429 ->
  withRateLimit g fn w = (Throw error, mkWorld o' (rateLimitResets w))
  /\ reset_of (snd (withRateLimit g fn w)) g = reset_of w g.
Proof.
  intros Hrun Hcode. rewrite withRateLimit_unfold. cbn zeta.
  rewrite Hrun, (code_is_429_false error Hcode). split; reflexivity.
Qed.

Lemma withRateLimit_other_failure_witness :
  withRateLimit tweet (post "down") (start t_boot)
  = (Throw (ErrorObject (CodeNum 503) "Service Unavailable"),
     mkWorld (mkOutside (t_boot + 80) [EvRemote (TweetText "down")])
             (rateLimitResets (start t_boot)))
  /\ reset_of (snd (withRateLimit tweet (post "down") (start t_boot))) tweet
     = reset_of (start t_boot) tweet.
Proof.
  apply (withRateLimit_other_failure tweet (post "down") (start t_boot)
           (ErrorObject (CodeNum 503) "Service Unavailable")).
  - reflexivity.
  - discriminate.
Defined.

(** What a successful call stores: the instant read on entry plus the
    cool-down, whether or not the call had to wait. *)
Lemma withRateLimit_success {T} (g : Endpoint) (fn : IO T) (w : World)
      (result : T) (o' : Outside) :
  fn (started_in g w) = (Ok result, o') ->
  withRateLimit g fn w
  = (Ok result,
     mkWorld o' (<[endpoint_name g := clock (outside w) + fifteen_minutes]>
                   (rateLimitResets w))).
Proof. intros Hrun. rewrite withRateLimit_unfold. cbn zeta. rewrite Hrun. reflexivity. Qed.

(** C3, evaluated.  Two calls on [tweet] in a row from start-up, each
    operation succeeding after 250 ms.  The second call enters at
    [t_boot + 250], waits, and its operation succeeds at
    [t_boot + 901250]; the value stored is the entry instant plus 15
    minutes, [t_boot + 900250], not the instant of success plus 15
    minutes, and it is already in the past when the call returns. *)
Theorem withRateLimit_stores_entry_instant :
  let w1 := run_call (mkCall 0 tweet (post "hello")) (start t_boot) in
  let w2 := snd (withRateLimit tweet (post "hello") w1) in
  clock (outside w1) = t_boot + 250
  /\ fst (withRateLimit tweet (post "hello") w1) = Ok "{id: 1}"
  /\ clock (outside w2) = t_boot + 901250
  /\ reset_of w2 tweet = Some (t_boot + 250 + fifteen_minutes)
  /\ reset_of w2 tweet <> Some (clock (outside w2) + fifteen_minutes)
  /\ t_boot + 250 + fifteen_minutes < clock (outside w2).
Proof. vm_compute. intuition congruence. Qed.

(** C6.  In a sequential run from start-up in which time only moves
    forward, every group always holds a number that is 0 or a past clock
    reading plus 15 minutes, and one more [withRateLimit] call, whatever
    its outcome, never lowers the number held for any group. *)
Theorem rateLimitResets_never_move_back {T} (t0 : Z) (cs : list (Call T))
        (c : Call T) (g : Endpoint) :
  0 <= t0 ->
  Forall well_behaved cs ->
  well_behaved c ->
  exists v v',
    reset_of (run_calls cs (start t0)) g = Some v
    /\ reset_of (run_call c (run_calls cs (start t0))) g = Some v'
    /\ v <= v'
    /\ 0 <= v'
    /\ (v' = 0 \/
        exists t, t0 <= t <= clock (outside (run_call c (run_calls cs (start t0))))
                  /\ v' = t + fifteen_minutes).
Proof.
  intros Ht0 Hcs Hc.
  pose proof (resets_inv_run_calls t0 cs (start t0) Hcs (resets_inv_start t0)) as Hinv.
  pose proof (resets_inv_run_call t0 c _ Hc Hinv) as Hinv'.
  destruct Hinv as [Hclock Hall]. destruct Hinv' as [Hclock' Hall'].
  destruct (Hall g) as (v & Hv & Hst). destruct (Hall' g) as (v' & Hv' & Hst').
  exists v, v'. repeat split; try assumption.
  - apply (run_call_monotone t0 c (run_calls cs (start t0)) g); try assumption.
    split; assumption.
  - destruct Hst' as [-> | (t & Ht & ->)]; unfold fifteen_minutes; lia.
Qed.

Lemma rateLimitResets_never_move_back_witness :
  exists v v',
    reset_of (run_calls [mkCall 0 tweet (post "hello"); mkCall 5000 home (post "down")]
                        (start t_boot)) tweet = Some v
    /\ reset_of (run_call (mkCall 60000 tweet (post "throttled"))
                   (run_calls [mkCall 0 tweet (post "hello"); mkCall 5000 home (post "down")]
                              (start t_boot))) tweet = Some v'
    /\ v <= v'
    /\ 0 <= v'
    /\ (v' = 0 \/
        exists t, t_boot <= t <= clock (outside
                    (run_call (mkCall 60000 tweet (post "throttled"))
                       (run_calls [mkCall 0 tweet (post "hello");
                                   mkCall 5000 home (post "down")]
                                  (start t_boot))))
                  /\ v' = t + fifteen_minutes).
Proof.
  apply (rateLimitResets_never_move_back t_boot
           [mkCall 0 tweet (post "hello"); mkCall 5000 home (post "down")]
           (mkCall 60000 tweet (post "throttled")) tweet).
  - unfold t_boot. lia.
  - repeat constructor; cbn; try lia; apply post_monotone.
  - split; [cbn; lia | apply post_monotone].
Defined.

(** ** Dispatcher: helper lemmas *)

Lemma truthy_Some (s : string) : s <> "" -> truthy (Some s) = true.
Proof.
  intros Hne. cbn. unfold truthy_string.
  destruct (String.eqb s "") eqn:Heq; [| reflexivity].
  apply String.eqb_eq in Heq. contradiction.
Qed.

Lemma remote_calls_app (l l' : list Event) :
  remote_calls (l ++ l') = remote_calls l ++ remote_calls l'.
Proof. apply omap_app. Qed.

Lemma stat_paths_app (l l' : list Event) :
  stat_paths (l ++ l') = stat_paths l ++ stat_paths l'.
Proof. apply omap_app. Qed.

(** The throttling wait adds a timer to the log and nothing else. *)
Lemma started_in_log (endpoint : Endpoint) (w : World) :
  remote_calls (log (started_in endpoint w)) = remote_calls (log (outside w))
  /\ stat_paths (log (started_in endpoint w)) = stat_paths (log (outside w)).
Proof.
  unfold started_in. destruct (js_lt _ _); cbn; [| split; reflexivity].
  rewrite remote_calls_app, stat_paths_app. cbn.
  rewrite !app_nil_r. split; reflexivity.
Qed.

(** The outer [catch] of the handler rethrows or wraps: it never touches
    the state. *)
Lemma callTool_state (env : Env) (request : CallToolRequest) (w : World) :
  snd (callTool env request w) = snd (tool_switch env request w).
Proof.
  unfold callTool, try_catch.
  destruct (tool_switch env request w) as [[response | error] w']; [reflexivity |].
  destruct (instanceof_McpError error); reflexivity.
Qed.

(** A remote request under the rate limiter reaches the remote client
    exactly once, and probes no file. *)
Lemma withRateLimit_call_remote_log (env : Env) (g : Endpoint) (call : RemoteCall)
      (w : World) :
  let w' := snd (withRateLimit g (call_remote env call) w) in
  remote_calls (log (outside w')) = remote_calls (log (outside w)) ++ [call]
  /\ stat_paths (log (outside w')) = stat_paths (log (outside w)).
Proof.
  cbn zeta. rewrite withRateLimit_unfold. cbn zeta.
  destruct (started_in_log g w) as [Hr Hs].
  unfold call_remote.
  destruct (outcome (remote env call (clock (started_in g w)))) as [data | error].
  - cbn. rewrite remote_calls_app, stat_paths_app, Hr, Hs. cbn.
    rewrite app_nil_r. split; reflexivity.
  - destruct (code_is_429 error); cbn;
      rewrite remote_calls_app, stat_paths_app, Hr, Hs; cbn;
      rewrite app_nil_r; split; reflexivity.
Qed.

(** ** Dispatcher: the claims *)

(** C4.  For every [get_home_timeline] invocation, whatever [limit] is
    requested, the invocation sends the remote client exactly one request,
    a timeline fetch whose [max_results] is the minimum of the requested
    limit (default 20) and 5, hence at most 5. *)
Theorem get_home_timeline_requests_at_most_5 (env : Env) (args : ToolArguments)
        (w : World) :
  let requested := default 20 (limit args) in
  let w' := snd (callTool env (get_home_timeline_request args) w) in
  remote_calls (log (outside w'))
  = remote_calls (log (outside w)) ++ [HomeTimeline (Z.min requested 5)]
  /\ Z.min requested 5 <= 5.
Proof.
  cbn zeta. split; [| lia].
  rewrite callTool_state. unfold tool_switch, get_home_timeline_request.
  cbn [name arguments String.eqb Ascii.eqb Bool.eqb].
  unfold get_home_timeline_case, bind, ret.
  pose proof (withRateLimit_call_remote_log env home
                (HomeTimeline (Z.min (default 20 (limit args)) 5)) w) as [Hr _].
  destruct (withRateLimit home _ w) as [[timeline | error] w']; exact Hr.
Qed.

(** C7.  A [create_tweet] or [reply_to_tweet] invocation in which both
    [image_path] and [video_path] are non-empty strings fails with an
    [InvalidRequest] error and leaves the world as it was: nothing is
    logged (no [stat], no read, no upload, no remote request, no timer)
    and [rateLimitResets] is untouched. *)
Theorem both_attachments_rejected (env : Env) (args : ToolArguments) (w : World)
        (image video : string) :
  image_path args = Some image -> image <> "" ->
  video_path args = Some video -> video <> "" ->
  callTool env (create_tweet_request args) w
  = (Throw (McpError InvalidRequest
       "Cannot attach both image and video to the same tweet. Please provide only one."),
     w)
  /\ callTool env (reply_to_tweet_request args) w
     = (Throw (McpError InvalidRequest
          "Cannot attach both image and video to the same reply. Please provide only one."),
        w).
Proof.
  intros Himage Hne_image Hvideo Hne_video.
  unfold callTool, tool_switch, create_tweet_request, reply_to_tweet_request.
  cbn [name arguments String.eqb Ascii.eqb Bool.eqb].
  unfold create_tweet_case, reply_to_tweet_case, try_catch, bind.
  rewrite Himage, Hvideo, (truthy_Some image Hne_image), (truthy_Some video Hne_video).
  split; reflexivity.
Qed.

Lemma both_attachments_rejected_witness :
  callTool demo_env
    (create_tweet_request
       (mkArguments None "hello" "" (Some "/tmp/cat.PNG") (Some "/tmp/clip.mp4")))
    (start t_boot)
  = (Throw (McpError InvalidRequest
       "Cannot attach both image and video to the same tweet. Please provide only one."),
     start t_boot)
  /\ callTool demo_env
       (reply_to_tweet_request
          (mkArguments None "hello" "" (Some "/tmp/cat.PNG") (Some "/tmp/clip.mp4")))
       (start t_boot)
     = (Throw (McpError InvalidRequest
          "Cannot attach both image and video to the same reply. Please provide only one."),
        start t_boot).
Proof.
  apply (both_attachments_rejected demo_env
           (mkArguments None "hello" "" (Some "/tmp/cat.PNG") (Some "/tmp/clip.mp4"))
           (start t_boot) "/tmp/cat.PNG" "/tmp/clip.mp4").
  - reflexivity.
  - discriminate.
  - reflexivity.
  - discriminate.
Defined.

(** ** Media validation: the claims *)

(** When the extension the code computes is a key of the image table,
    [uploadImage] throws no validation error and uploads with the value
    stored under that key. *)
Lemma uploadImage_runs_on_extension (env : Env) (imagePath : string)
        (o : Outside) (fileStats : Stats) (ext : string) :
  fs_stat env (resolve env imagePath) = Some fileStats ->
  isFile fileStats = true ->
  size fileStats <= 5 * 1024 * 1024 ->
  extension (resolve env imagePath) = Some ext ->
  In ext ["png"; "jpg"; "jpeg"; "gif"; "webp"] ->
  exists mime,
    uploadImage env imagePath o
    = (let* imageBuffer := readFile env (resolve env imagePath) in
       call_remote env (UploadImageMedia imageBuffer (JsString mime)))
        (mkOutside (clock o) (log o ++ [EvStat (resolve env imagePath)]))
    /\ (ext = "png" -> mime = "image/png")
    /\ (ext = "jpg" \/ ext = "jpeg" -> mime = "image/jpeg")
    /\ (ext = "gif" -> mime = "image/gif")
    /\ (ext = "webp" -> mime = "image/webp").
Proof.
  intros Hstat Hfile Hsize Hext Hin.
  assert (Hrun : forall mime,
             own_property image_mimeTypes ext = Some mime ->
             truthy (Some ext) = true -> truthy_string mime = true ->
             uploadImage env imagePath o
             = (let* imageBuffer := readFile env (resolve env imagePath) in
                call_remote env (UploadImageMedia imageBuffer (JsString mime)))
                 (mkOutside (clock o) (log o ++ [EvStat (resolve env imagePath)]))).
  { intros mime Hown Hext_truthy Hmime_truthy.
    unfold uploadImage, stat, emit, try_catch, bind at 1 2 3 4 5, ret, throw.
    rewrite Hstat, Hfile. cbn [negb].
    assert (Hle : (IMAGE_MAX_SIZE <? size fileStats) = false)
      by (apply Z.ltb_ge; unfold IMAGE_MAX_SIZE; lia).
    rewrite Hle, Hext. cbn [default from_option id].
    unfold get_property. rewrite Hown, Hext_truthy. cbn [truthy_value].
    rewrite Hmime_truthy. reflexivity. }
  cbn in Hin.
  destruct Hin as [<- | [<- | [<- | [<- | [<- | []]]]]].
  - exists "image/png". split; [apply Hrun; reflexivity |].
    repeat split; intros; try reflexivity; intuition discriminate.
  - exists "image/jpeg". split; [apply Hrun; reflexivity |].
    repeat split; intros; try reflexivity; intuition discriminate.
  - exists "image/jpeg". split; [apply Hrun; reflexivity |].
    repeat split; intros; try reflexivity; intuition discriminate.
  - exists "image/gif". split; [apply Hrun; reflexivity |].
    repeat split; intros; try reflexivity; intuition discriminate.
  - exists "image/webp". split; [apply Hrun; reflexivity |].
    repeat split; intros; try reflexivity; intuition discriminate.
Qed.

(** *** The extension of a path that ends in a dot and a suffix *)

Lemma toLowerCase_app (s1 s2 : string) :
  toLowerCase (s1 +:+ s2) = toLowerCase s1 +:+ toLowerCase s2.
Proof.
  induction s1 as [| c s1 IH]; [reflexivity |].
  change (toLowerCase (String c (s1 +:+ s2))
          = String (lower_ascii c) (toLowerCase s1 +:+ toLowerCase s2)).
  cbn [toLowerCase]. rewrite IH. reflexivity.
Qed.

Lemma split_dot_free (sep : ascii) (s : string) :
  ~ In sep (chars s) -> split sep s = [s].
Proof.
  induction s as [| c rest IH]; intros Hfree; [reflexivity |].
  cbn [split]. destruct (Ascii.eqb c sep) eqn:Hc.
  - apply Ascii.eqb_eq in Hc. exfalso. apply Hfree. left. exact Hc.
  - rewrite IH by (intros Hin; apply Hfree; right; exact Hin). reflexivity.
Qed.

Lemma split_cons (sep c : ascii) (s : string) :
  split sep (String c s)
  = if Ascii.eqb c sep then EmptyString :: split sep s
    else match split sep s with
         | seg :: segs => String c seg :: segs
         | [] => [String c EmptyString]
         end.
Proof. reflexivity. Qed.

Lemma split_suffix (sep : ascii) (stem suffix : string) :
  ~ In sep (chars suffix) ->
  exists first rest, split sep (stem +:+ String sep suffix) = first :: rest ++ [suffix].
Proof.
  intros Hfree. induction stem as [| c stem IH].
  - change ("" +:+ String sep suffix) with (String sep suffix).
    rewrite split_cons, Ascii.eqb_refl, (split_dot_free sep suffix Hfree).
    exists "", []. reflexivity.
  - change (String c stem +:+ String sep suffix)
      with (String c (stem +:+ String sep suffix)).
    rewrite split_cons. destruct IH as (first & rest & ->).
    destruct (Ascii.eqb c sep).
    + exists "", (first :: rest). reflexivity.
    + exists (String c first), rest. reflexivity.
Qed.

(** The code's [extension] of [stem.suffix] is the lowercased suffix. *)
Lemma extension_of_suffix (stem suffix : string) :
  ~ In "."%char (chars (toLowerCase suffix)) ->
  extension (stem +:+ "." +:+ suffix) = Some (toLowerCase suffix).
Proof.
  intros Hfree. unfold extension, pop.
  change (stem +:+ "." +:+ suffix) with (stem +:+ String "." suffix).
  rewrite toLowerCase_app.
  change (toLowerCase (String "." suffix)) with (String "." (toLowerCase suffix)).
  destruct (split_suffix "." (toLowerCase stem) (toLowerCase suffix) Hfree)
    as (first & rest & ->).
  rewrite app_comm_cons. apply last_snoc.
Qed.

Lemma lower_same_letter (c d : ascii) :
  same_letter c d -> lower_ascii d = d -> lower_ascii c = d.
Proof.
  intros [-> | ->]; [trivial |].
  destruct d as [[] [] [] [] [] [] [] []]; vm_compute; congruence.
Qed.

Lemma spells_lower (s ext : string) :
  spells_ignoring_case s ext -> toLowerCase ext = ext -> toLowerCase s = ext.
Proof.
  revert ext. induction s as [| c s IH]; intros [| d ext]; cbn; try tauto.
  intros [Hletter Hrest] [= Hd Hext].
  rewrite (lower_same_letter c d Hletter Hd), (IH ext Hrest Hext). reflexivity.
Qed.

(** A suffix that spells a dot-free lower-case extension is the extension
    the code computes. *)
Lemma extension_of_spelled_suffix (stem suffix ext : string) :
  spells_ignoring_case suffix ext ->
  toLowerCase ext = ext ->
  ~ In "."%char (chars ext) ->
  extension (stem +:+ "." +:+ suffix) = Some ext.
Proof.
  intros Hspells Hlower Hfree.
  pose proof (spells_lower suffix ext Hspells Hlower) as Hext.
  rewrite <- Hext. apply extension_of_suffix. rewrite Hext. exact Hfree.
Qed.

(** C8.  For every path that resolves to an existing regular file of at
    most 5 MiB and ends in a dot followed by png, jpg, jpeg, gif or webp
    in any mix of upper and lower case, [uploadImage] throws no validation
    error: after the one [stat] it goes on to read the file and to upload
    it, and the content type it passes to the upload is the one mapped to
    that extension. *)
Theorem uploadImage_accepts_supported (env : Env) (imagePath : string)
        (o : Outside) (fileStats : Stats) (stem suffix ext : string) :
  fs_stat env (resolve env imagePath) = Some fileStats ->
  isFile fileStats = true ->
  size fileStats <= 5 * 1024 * 1024 ->
  resolve env imagePath = stem +:+ "." +:+ suffix ->
  spells_ignoring_case suffix ext ->
  In ext ["png"; "jpg"; "jpeg"; "gif"; "webp"] ->
  exists mime,
    uploadImage env imagePath o
    = (let* imageBuffer := readFile env (resolve env imagePath) in
       call_remote env (UploadImageMedia imageBuffer (JsString mime)))
        (mkOutside (clock o) (log o ++ [EvStat (resolve env imagePath)]))
    /\ (ext = "png" -> mime = "image/png")
    /\ (ext = "jpg" \/ ext = "jpeg" -> mime = "image/jpeg")
    /\ (ext = "gif" -> mime = "image/gif")
    /\ (ext = "webp" -> mime = "image/webp").
Proof.
  intros Hstat Hfile Hsize Hpath Hspells Hin.
  apply (uploadImage_runs_on_extension env imagePath o fileStats ext);
    try assumption.
  rewrite Hpath. apply extension_of_spelled_suffix; [exact Hspells | |];
    cbn in Hin; destruct Hin as [<- | [<- | [<- | [<- | [<- | []]]]]];
    first [reflexivity | cbn; intuition discriminate].
Qed.

Lemma uploadImage_accepts_supported_witness :
  exists mime,
    uploadImage demo_env "/tmp/cat.PNG" (mkOutside t_boot [])
    = (let* imageBuffer := readFile demo_env (resolve demo_env "/tmp/cat.PNG") in
       call_remote demo_env (UploadImageMedia imageBuffer (JsString mime)))
        (mkOutside (clock (mkOutside t_boot []))
                   (log (mkOutside t_boot []) ++ [EvStat (resolve demo_env "/tmp/cat.PNG")]))
    /\ ("png" = "png" -> mime = "image/png")
    /\ ("png" = "jpg" \/ "png" = "jpeg" -> mime = "image/jpeg")
    /\ ("png" = "gif" -> mime = "image/gif")
    /\ ("png" = "webp" -> mime = "image/webp").
Proof.
  apply (uploadImage_accepts_supported demo_env "/tmp/cat.PNG" (mkOutside t_boot [])
           (mkStats true 2048) "/tmp/cat" "PNG" "png").
  - reflexivity.
  - reflexivity.
  - cbn. lia.
  - reflexivity.
  - cbn. repeat split; right; reflexivity.
  - cbn. left. reflexivity.
Defined.

(** The part of C9 the code does implement: when the extension is empty,
    or is neither a key of the table nor a name inherited from
    [Object.prototype], validation fails and the message lists the keys of
    the table, in order. *)
Lemma uploadImage_rejects_unknown (env : Env) (imagePath : string) (o : Outside)
      (fileStats : Stats) (ext : string) :
  fs_stat env (resolve env imagePath) = Some fileStats ->
  isFile fileStats = true ->
  size fileStats <= IMAGE_MAX_SIZE ->
  extension (resolve env imagePath) = Some ext ->
  ext = "" \/ get_property image_mimeTypes ext = JsUndefined ->
  uploadImage env imagePath o
  = (Throw (Error "Unsupported file format. Supported formats: png, jpg, jpeg, gif, webp"),
     mkOutside (clock o) (log o ++ [EvStat (resolve env imagePath)])).
Proof.
  intros Hstat Hfile Hsize Hext Hunknown.
  unfold uploadImage, stat, emit, try_catch, bind at 1 2 3 4 5, ret, throw.
  rewrite Hstat, Hfile. cbn [negb].
  assert (Hle : (IMAGE_MAX_SIZE <? size fileStats) = false) by (apply Z.ltb_ge; lia).
  rewrite Hle, Hext. cbn [default from_option id].
  destruct Hunknown as [-> | Hundef].
  - reflexivity.
  - rewrite Hundef. cbn [truthy_value negb]. rewrite orb_true_r. reflexivity.
Qed.

Lemma uploadVideo_rejects_unknown (env : Env) (videoPath : string) (o : Outside)
      (fileStats : Stats) (ext : string) :
  fs_stat env (resolve env videoPath) = Some fileStats ->
  isFile fileStats = true ->
  size fileStats <= VIDEO_MAX_SIZE ->
  extension (resolve env videoPath) = Some ext ->
  ext = "" \/ get_property video_mimeTypes ext = JsUndefined ->
  uploadVideo env videoPath o
  = (Throw (Error "Unsupported video format. Supported formats: mp4, mov, avi, webm, m4v"),
     mkOutside (clock o) (log o ++ [EvStat (resolve env videoPath)])).
Proof.
  intros Hstat Hfile Hsize Hext Hunknown.
  unfold uploadVideo, stat, emit, try_catch, bind at 1 2 3 4 5, ret, throw.
  rewrite Hstat, Hfile. cbn [negb].
  assert (Hle : (VIDEO_MAX_SIZE <? size fileStats) = false) by (apply Z.ltb_ge; lia).
  rewrite Hle, Hext. cbn [default from_option id].
  destruct Hunknown as [-> | Hundef].
  - reflexivity.
  - rewrite Hundef. cbn [truthy_value negb]. rewrite orb_true_r. reflexivity.
Qed.

(** C9, evaluated.  [/tmp/photo.constructor] is a regular file of 1024
    bytes whose extension, [constructor], is in neither table.  The
    look-up [mimeTypes[ext]] finds the member every object inherits, so no
    format error is thrown: both uploaders read the file and send it to
    the remote client with that member as content type. *)
Theorem upload_accepts_inherited_extension :
  demo_stat "/tmp/photo.constructor" = Some (mkStats true 1024)
  /\ extension "/tmp/photo.constructor" = Some "constructor"
  /\ own_property image_mimeTypes "constructor" = None
  /\ own_property video_mimeTypes "constructor" = None
  /\ uploadImage demo_env "/tmp/photo.constructor" (mkOutside t_boot [])
     = (Ok "media-1",
        mkOutside (t_boot + 400)
          [ EvStat "/tmp/photo.constructor";
            EvReadFile "/tmp/photo.constructor";
            EvRemote (UploadImageMedia "bytes of /tmp/photo.constructor"
                        (JsInherited "constructor")) ])
  /\ uploadVideo demo_env "/tmp/photo.constructor" (mkOutside t_boot [])
     = (Ok "media-2",
        mkOutside (t_boot + 900)
          [ EvStat "/tmp/photo.constructor";
            EvReadFile "/tmp/photo.constructor";
            EvRemote (UploadVideoMedia "bytes of /tmp/photo.constructor"
                        (JsInherited "constructor") false) ]).
Proof. repeat split; vm_compute; reflexivity. Qed.

(** The same file with a plain unknown extension is rejected as the claim
    says. *)
Example uploadImage_rejects_txt :
  uploadImage demo_env "/tmp/notes.txt" (mkOutside t_boot [])
  = (Throw (Error "Unsupported file format. Supported formats: png, jpg, jpeg, gif, webp"),
     mkOutside t_boot [EvStat "/tmp/notes.txt"]).
Proof.
  apply (uploadImage_rejects_unknown demo_env "/tmp/notes.txt" (mkOutside t_boot [])
           (mkStats true 512) "txt"); try reflexivity.
  - cbn. unfold IMAGE_MAX_SIZE. lia.
  - right. reflexivity.
Qed.

(** ** Attachments: what the uploaders log *)

Ltac run_upload :=
  repeat first
    [ progress cbn [fst snd clock log negb default from_option id]
    | match goal with
      | |- context [match ?x with Some _ => _ | None => _ end] => destruct x
      | |- context [if ?b then _ else _] => destruct b
      | |- context [match ?x with Ok _ => _ | Throw _ => _ end] => destruct x
      end ].








(** The run of the witness, spelled out: the video is probed, read and
    uploaded, and the tweet is posted with the media handle. *)
Example create_tweet_empty_image_run :
  callTool demo_env
    (create_tweet_request (mkArguments None "hello" "" (Some "") (Some "/tmp/clip.mp4")))
    (start t_boot)
  = (Ok [mkContent "text" "{id: 1}"],
     mkWorld
       (mkOutside (t_boot + 900 + 250)
          [ EvStat "/tmp/clip.mp4"; EvReadFile "/tmp/clip.mp4";
            EvRemote (UploadVideoMedia "bytes of /tmp/clip.mp4" (JsString "video/mp4") false);
            EvRemote (TweetMedia "hello" "media-2") ])
       (<["tweet" := t_boot + 900 + fifteen_minutes]> rateLimitResets_init)).
Proof. vm_compute. reflexivity. Qed.

(** ** Text length *)

(** C5, counterexample.  A [create_tweet] invocation whose text has 281
    characters is not rejected: the text goes to the remote client and the
    invocation succeeds. *)
Lemma create_tweet_sends_long_text :
  String.length long_text = 281%nat
  /\ callTool demo_env
       (create_tweet_request (mkArguments None long_text "" None None)) (start t_boot)
     = (Ok [mkContent "text" "{id: 1}"],
        mkWorld (mkOutside (t_boot + 250) [EvRemote (TweetText long_text)])
                (<["tweet" := t_boot + fifteen_minutes]> rateLimitResets_init))
  /\ ~ (exists message,
         fst (callTool demo_env
                (create_tweet_request (mkArguments None long_text "" None None))
                (start t_boot))
         = Throw (McpError InvalidRequest message)).
Proof.
  split; [vm_compute; reflexivity |].
  split; [vm_compute; reflexivity |].
  intros [message Hrejected]. vm_compute in Hrejected. discriminate Hrejected.
Qed.

(** C5, amended.  The bound of 280 characters on [text] is declared in the
    advertised input schema of [create_tweet] and [reply_to_tweet], and the
    handler does not check it: an invocation without attachments sends its
    text, whatever its length, unchanged to the remote client as the one
    remote request it makes, and succeeds when the remote client accepts
    that request. *)
Theorem text_length_is_not_checked (env : Env) (args : ToolArguments) (w : World) :
  truthy (image_path args) = false ->
  truthy (video_path args) = false ->
  In (mkTool "create_tweet" (Some 280) ["text"]) listTools
  /\ In (mkTool "reply_to_tweet" (Some 280) ["tweet_id"; "text"]) listTools
  /\ remote_calls (log (outside (snd (callTool env (create_tweet_request args) w))))
     = remote_calls (log (outside w)) ++ [TweetText (text args)]
  /\ remote_calls (log (outside (snd (callTool env (reply_to_tweet_request args) w))))
     = remote_calls (log (outside w)) ++ [ReplyText (text args) (tweet_id args)]
  /\ (forall created,
        outcome (remote env (TweetText (text args)) (clock (started_in tweet w)))
        = Ok created ->
        fst (callTool env (create_tweet_request args) w) = Ok (respond env created))
  /\ (forall replied,
        outcome (remote env (ReplyText (text args) (tweet_id args))
                   (clock (started_in reply w)))
        = Ok replied ->
        fst (callTool env (reply_to_tweet_request args) w) = Ok (respond env replied)).
Proof.
  intros Himage Hvideo.
  split; [cbn; tauto |]. split; [cbn; tauto |].
  assert (Hcreate : create_tweet_case env args w
                    = (let* posted := withRateLimit tweet
                                        (call_remote env (TweetText (text args))) in
                       ret (respond env posted)) w).
  { unfold create_tweet_case. rewrite Himage, Hvideo. reflexivity. }
  assert (Hreply : reply_to_tweet_case env args w
                   = (let* sent := withRateLimit reply
                                     (call_remote env
                                        (ReplyText (text args) (tweet_id args))) in
                      ret (respond env sent)) w).
  { unfold reply_to_tweet_case. rewrite Himage, Hvideo. reflexivity. }
  repeat split.
  - rewrite callTool_state. unfold tool_switch, create_tweet_request.
    cbn [name arguments String.eqb Ascii.eqb Bool.eqb].
    rewrite Hcreate. unfold bind, ret.
    destruct (withRateLimit_call_remote_log env tweet (TweetText (text args)) w)
      as [Hlog _].
    destruct (withRateLimit tweet _ w) as [[posted | error] w']; exact Hlog.
  - rewrite callTool_state. unfold tool_switch, reply_to_tweet_request.
    cbn [name arguments String.eqb Ascii.eqb Bool.eqb].
    rewrite Hreply. unfold bind, ret.
    destruct (withRateLimit_call_remote_log env reply
                (ReplyText (text args) (tweet_id args)) w) as [Hlog _].
    destruct (withRateLimit reply _ w) as [[sent | error] w']; exact Hlog.
  - intros created Hcreated.
    unfold callTool, tool_switch, create_tweet_request, try_catch.
    cbn [name arguments String.eqb Ascii.eqb Bool.eqb].
    rewrite Hcreate. unfold bind.
    erewrite withRateLimit_success
      by (unfold call_remote; rewrite Hcreated; reflexivity).
    reflexivity.
  - intros replied Hreplied.
    unfold callTool, tool_switch, reply_to_tweet_request, try_catch.
    cbn [name arguments String.eqb Ascii.eqb Bool.eqb].
    rewrite Hreply. unfold bind.
    erewrite withRateLimit_success
      by (unfold call_remote; rewrite Hreplied; reflexivity).
    reflexivity.
Qed.

Lemma text_length_is_not_checked_witness :
  In (mkTool "create_tweet" (Some 280) ["text"]) listTools
  /\ In (mkTool "reply_to_tweet" (Some 280) ["tweet_id"; "text"]) listTools
  /\ remote_calls (log (outside (snd
        (callTool demo_env
           (create_tweet_request (mkArguments None long_text "42" None None))
           (start t_boot)))))
     = remote_calls (log (outside (start t_boot))) ++ [TweetText long_text]
  /\ remote_calls (log (outside (snd
        (callTool demo_env
           (reply_to_tweet_request (mkArguments None long_text "42" None None))
           (start t_boot)))))
     = remote_calls (log (outside (start t_boot))) ++ [ReplyText long_text "42"]
  /\ fst (callTool demo_env
            (create_tweet_request (mkArguments None long_text "42" None None))
            (start t_boot))
     = Ok (respond demo_env "{id: 1}")
  /\ fst (callTool demo_env
            (reply_to_tweet_request (mkArguments None long_text "42" None None))
            (start t_boot))
     = Ok (respond demo_env "{id: 1}").
Proof.
  destruct (text_length_is_not_checked demo_env
              (mkArguments None long_text "42" None None) (start t_boot)
              eq_refl eq_refl)
    as (Hcreate_tool & Hreply_tool & Hcreate_sent & Hreply_sent & Hcreate_ok & Hreply_ok).
  split; [exact Hcreate_tool |]. split; [exact Hreply_tool |].
  split; [exact Hcreate_sent |]. split; [exact Hreply_sent |].
  split.
  - apply Hcreate_ok. vm_compute. reflexivity.
  - apply Hreply_ok. vm_compute. reflexivity.
Defined.

(** * Further properties of the code *)

(** ** Media validation: rejections *)

(** X1.  When [stat] rejects, both uploaders throw [File not found: ]
    followed by the base name of the resolved path, having made that one
    probe and nothing else. *)
Theorem upload_file_not_found (env : Env) (path : string) (o : Outside) :
  fs_stat env (resolve env path) = None ->
  uploadImage env path o
  = (Throw (Error ("File not found: " +:+ basename env (resolve env path))),
     mkOutside (clock o) (log o ++ [EvStat (resolve env path)]))
  /\ uploadVideo env path o
     = (Throw (Error ("File not found: " +:+ basename env (resolve env path))),
        mkOutside (clock o) (log o ++ [EvStat (resolve env path)])).
Proof.
  intros Hstat.
  unfold uploadImage, uploadVideo, stat, emit, try_catch, bind, ret, throw.
  rewrite Hstat. split; reflexivity.
Qed.

Lemma upload_file_not_found_witness :
  uploadImage demo_env "/tmp/missing.png" (mkOutside t_boot [])
  = (Throw (Error ("File not found: "
                   +:+ basename demo_env (resolve demo_env "/tmp/missing.png"))),
     mkOutside (clock (mkOutside t_boot []))
               (log (mkOutside t_boot []) ++ [EvStat (resolve demo_env "/tmp/missing.png")]))
  /\ uploadVideo demo_env "/tmp/missing.png" (mkOutside t_boot [])
     = (Throw (Error ("File not found: "
                      +:+ basename demo_env (resolve demo_env "/tmp/missing.png"))),
        mkOutside (clock (mkOutside t_boot []))
                  (log (mkOutside t_boot []) ++ [EvStat (resolve demo_env "/tmp/missing.png")])).
Proof.
  apply (upload_file_not_found demo_env "/tmp/missing.png" (mkOutside t_boot [])).
  reflexivity.
Defined.

(** X2.  When the resolved path exists but is not a regular file, both
    uploaders throw [Path is not a file: ] followed by its base name,
    whatever its size and extension, and read nothing. *)
Theorem upload_not_a_file (env : Env) (path : string) (o : Outside)
        (fileStats : Stats) :
  fs_stat env (resolve env path) = Some fileStats ->
  isFile fileStats = false ->
  uploadImage env path o
  = (Throw (Error ("Path is not a file: " +:+ basename env (resolve env path))),
     mkOutside (clock o) (log o ++ [EvStat (resolve env path)]))
  /\ uploadVideo env path o
     = (Throw (Error ("Path is not a file: " +:+ basename env (resolve env path))),
        mkOutside (clock o) (log o ++ [EvStat (resolve env path)])).
Proof.
  intros Hstat Hfile.
  unfold uploadImage, uploadVideo, stat, emit, try_catch, bind, ret, throw.
  rewrite Hstat, Hfile. split; reflexivity.
Qed.

Lemma upload_not_a_file_witness :
  uploadImage demo_env "/tmp" (mkOutside t_boot [])
  = (Throw (Error ("Path is not a file: " +:+ basename demo_env (resolve demo_env "/tmp"))),
     mkOutside (clock (mkOutside t_boot []))
               (log (mkOutside t_boot []) ++ [EvStat (resolve demo_env "/tmp")]))
  /\ uploadVideo demo_env "/tmp" (mkOutside t_boot [])
     = (Throw (Error ("Path is not a file: " +:+ basename demo_env (resolve demo_env "/tmp"))),
        mkOutside (clock (mkOutside t_boot []))
                  (log (mkOutside t_boot []) ++ [EvStat (resolve demo_env "/tmp")])).
Proof.
  apply (upload_not_a_file demo_env "/tmp" (mkOutside t_boot []) (mkStats false 4096)).
  - reflexivity.
  - reflexivity.
Defined.

(** X3.  A regular file of more than 5 MiB is refused by [uploadImage],
    and one of more than 512 MiB by [uploadVideo], with the size message,
    before the extension is looked at and without reading the file. *)
Theorem upload_too_large (env : Env) (path : string) (o : Outside)
        (fileStats : Stats) :
  fs_stat env (resolve env path) = Some fileStats ->
  isFile fileStats = true ->
  (5 * 1024 * 1024 < size fileStats ->
   uploadImage env path o
   = (Throw (Error ("File size exceeds 5MB limit ("
                    +:+ toFixedMB env (size fileStats) +:+ "MB)")),
      mkOutside (clock o) (log o ++ [EvStat (resolve env path)])))
  /\ (512 * 1024 * 1024 < size fileStats ->
      uploadVideo env path o
      = (Throw (Error ("Video size exceeds 512MB limit ("
                       +:+ toFixedMB env (size fileStats) +:+ "MB)")),
         mkOutside (clock o) (log o ++ [EvStat (resolve env path)]))).
Proof.
  intros Hstat Hfile.
  split; intros Hsize;
    unfold uploadImage, uploadVideo, stat, emit, try_catch, bind, ret, throw;
    rewrite Hstat, Hfile; cbn [negb].
  - assert (Hlt : (IMAGE_MAX_SIZE <? size fileStats) = true)
      by (apply Z.ltb_lt; unfold IMAGE_MAX_SIZE; lia).
    rewrite Hlt. reflexivity.
  - assert (Hlt : (VIDEO_MAX_SIZE <? size fileStats) = true)
      by (apply Z.ltb_lt; unfold VIDEO_MAX_SIZE; lia).
    rewrite Hlt. reflexivity.
Qed.

Lemma upload_too_large_witness :
  uploadImage archive_env "/data/raw.mov" (mkOutside t_boot [])
  = (Throw (Error "File size exceeds 5MB limit (600.00MB)"),
     mkOutside t_boot [EvStat "/data/raw.mov"])
  /\ uploadVideo archive_env "/data/raw.mov" (mkOutside t_boot [])
     = (Throw (Error "Video size exceeds 512MB limit (600.00MB)"),
        mkOutside t_boot [EvStat "/data/raw.mov"]).
Proof.
  destruct (upload_too_large archive_env "/data/raw.mov" (mkOutside t_boot [])
              (mkStats true (600 * 1024 * 1024)) eq_refl eq_refl) as [Himage Hvideo].
  split.
  - apply Himage. cbn. lia.
  - apply Hvideo. cbn. lia.
Defined.

(** ** Media validation: what a video upload sends *)

(** When the extension the code computes is a key of the video table,
    [uploadVideo] throws no validation error and uploads with the value
    stored under that key. *)
Lemma uploadVideo_runs_on_extension (env : Env) (videoPath : string)
        (o : Outside) (fileStats : Stats) (ext : string) :
  fs_stat env (resolve env videoPath) = Some fileStats ->
  isFile fileStats = true ->
  size fileStats <= 512 * 1024 * 1024 ->
  extension (resolve env videoPath) = Some ext ->
  In ext ["mp4"; "mov"; "avi"; "webm"; "m4v"] ->
  exists mime,
    uploadVideo env videoPath o
    = (let* videoBuffer := readFile env (resolve env videoPath) in
       call_remote env
         (UploadVideoMedia videoBuffer (JsString mime)
            (15 * 1024 * 1024 <? size fileStats)))
        (mkOutside (clock o) (log o ++ [EvStat (resolve env videoPath)]))
    /\ (ext = "mp4" -> mime = "video/mp4")
    /\ (ext = "mov" -> mime = "video/quicktime")
    /\ (ext = "avi" -> mime = "video/x-msvideo")
    /\ (ext = "webm" -> mime = "video/webm")
    /\ (ext = "m4v" -> mime = "video/x-m4v").
Proof.
  intros Hstat Hfile Hsize Hext Hin.
  assert (Hrun : forall mime,
             own_property video_mimeTypes ext = Some mime ->
             truthy (Some ext) = true -> truthy_string mime = true ->
             uploadVideo env videoPath o
             = (let* videoBuffer := readFile env (resolve env videoPath) in
                call_remote env
                  (UploadVideoMedia videoBuffer (JsString mime)
                     (15 * 1024 * 1024 <? size fileStats)))
                 (mkOutside (clock o) (log o ++ [EvStat (resolve env videoPath)]))).
  { intros mime Hown Hext_truthy Hmime_truthy.
    unfold uploadVideo, stat, emit, try_catch, bind at 1 2 3 4 5, ret, throw.
    rewrite Hstat, Hfile. cbn [negb].
    assert (Hle : (VIDEO_MAX_SIZE <? size fileStats) = false)
      by (apply Z.ltb_ge; unfold VIDEO_MAX_SIZE; lia).
    rewrite Hle, Hext. cbn [default from_option id].
    unfold get_property. rewrite Hown, Hext_truthy. cbn [truthy_value].
    rewrite Hmime_truthy. reflexivity. }
  cbn in Hin.
  destruct Hin as [<- | [<- | [<- | [<- | [<- | []]]]]];
    [ exists "video/mp4" | exists "video/quicktime" | exists "video/x-msvideo"
    | exists "video/webm" | exists "video/x-m4v" ];
    (split; [apply Hrun; reflexivity |]);
    repeat split; intros Heq; try reflexivity; discriminate Heq.
Qed.

(** X4.  For every path that resolves to an existing regular file of at
    most 512 MiB and ends in a dot followed by mp4, mov, avi, webm or m4v
    in any mix of upper and lower case, [uploadVideo] throws no validation
    error: it reads the file and uploads it with the content type mapped
    to that extension, and flags the upload as a long video exactly when
    the file has more than 15 MiB. *)
Theorem uploadVideo_accepts_supported (env : Env) (videoPath : string)
        (o : Outside) (fileStats : Stats) (stem suffix ext : string) :
  fs_stat env (resolve env videoPath) = Some fileStats ->
  isFile fileStats = true ->
  size fileStats <= 512 * 1024 * 1024 ->
  resolve env videoPath = stem +:+ "." +:+ suffix ->
  spells_ignoring_case suffix ext ->
  In ext ["mp4"; "mov"; "avi"; "webm"; "m4v"] ->
  exists mime,
    uploadVideo env videoPath o
    = (let* videoBuffer := readFile env (resolve env videoPath) in
       call_remote env
         (UploadVideoMedia videoBuffer (JsString mime)
            (15 * 1024 * 1024 <? size fileStats)))
        (mkOutside (clock o) (log o ++ [EvStat (resolve env videoPath)]))
    /\ (ext = "mp4" -> mime = "video/mp4")
    /\ (ext = "mov" -> mime = "video/quicktime")
    /\ (ext = "avi" -> mime = "video/x-msvideo")
    /\ (ext = "webm" -> mime = "video/webm")
    /\ (ext = "m4v" -> mime = "video/x-m4v").
Proof.
  intros Hstat Hfile Hsize Hpath Hspells Hin.
  apply (uploadVideo_runs_on_extension env videoPath o fileStats ext);
    try assumption.
  rewrite Hpath. apply extension_of_spelled_suffix; [exact Hspells | |];
    cbn in Hin; destruct Hin as [<- | [<- | [<- | [<- | [<- | []]]]]];
    first [reflexivity | cbn; intuition discriminate].
Qed.

Lemma uploadVideo_accepts_supported_witness :
  exists mime,
    uploadVideo archive_env "/data/talk.WebM" (mkOutside t_boot [])
    = (let* videoBuffer := readFile archive_env (resolve archive_env "/data/talk.WebM") in
       call_remote archive_env
         (UploadVideoMedia videoBuffer (JsString mime)
            (15 * 1024 * 1024 <? size (mkStats true (20 * 1024 * 1024)))))
        (mkOutside (clock (mkOutside t_boot []))
           (log (mkOutside t_boot []) ++ [EvStat (resolve archive_env "/data/talk.WebM")]))
    /\ ("webm" = "mp4" -> mime = "video/mp4")
    /\ ("webm" = "mov" -> mime = "video/quicktime")
    /\ ("webm" = "avi" -> mime = "video/x-msvideo")
    /\ ("webm" = "webm" -> mime = "video/webm")
    /\ ("webm" = "m4v" -> mime = "video/x-m4v").
Proof.
  apply (uploadVideo_accepts_supported archive_env "/data/talk.WebM"
           (mkOutside t_boot []) (mkStats true (20 * 1024 * 1024))
           "/data/talk" "WebM" "webm").
  - reflexivity.
  - reflexivity.
  - cbn. lia.
  - reflexivity.
  - cbn. repeat split; first [left; reflexivity | right; reflexivity].
  - cbn. tauto.
Defined.

(** ** Media validation: the order of probes, reads and uploads *)

(** X5.  What [uploadImage] does to the outside world is one of three
    things: the [stat] alone; the [stat] and a read that failed, whose
    error it throws; or the [stat], the read and one upload of the bytes
    read.  The file is read only when the probe found a regular file of at
    most 5 MiB, and the remote client is contacted only after the read
    succeeded. *)
Theorem uploadImage_io_order (env : Env) (path : string) (o : Outside) :
  log (snd (uploadImage env path o)) = log o ++ [EvStat (resolve env path)]
  \/ (exists fileStats,
        fs_stat env (resolve env path) = Some fileStats
        /\ isFile fileStats = true
        /\ size fileStats <= 5 * 1024 * 1024
        /\ ((exists error,
               fs_readFile env (resolve env path) = Throw error
               /\ fst (uploadImage env path o) = Throw error
               /\ log (snd (uploadImage env path o))
                  = log o ++ [EvStat (resolve env path); EvReadFile (resolve env path)])
            \/ (exists bytes mimeType,
                  fs_readFile env (resolve env path) = Ok bytes
                  /\ log (snd (uploadImage env path o))
                     = log o ++ [ EvStat (resolve env path);
                                  EvReadFile (resolve env path);
                                  EvRemote (UploadImageMedia bytes mimeType) ]))).
Proof.
  unfold uploadImage, stat, readFile, call_remote, emit, try_catch, bind, ret, throw.
  destruct (fs_stat env (resolve env path)) as [fileStats |] eqn:Hstat;
    [| left; reflexivity].
  destruct (isFile fileStats) eqn:Hfile; cbn [negb]; [| left; reflexivity].
  destruct (IMAGE_MAX_SIZE <? size fileStats) eqn:Hsize; [left; reflexivity |].
  apply Z.ltb_ge in Hsize. unfold IMAGE_MAX_SIZE in Hsize.
  destruct (negb (truthy (extension (resolve env path))) || _); [left; reflexivity |].
  right. exists fileStats. repeat (split; [first [reflexivity | assumption] |]).
  destruct (fs_readFile env (resolve env path)) as [bytes | error]; cbn.
  - right. exists bytes. eexists. split; [reflexivity |].
    rewrite <- !app_assoc. reflexivity.
  - left. exists error. repeat split. rewrite <- !app_assoc. reflexivity.
Qed.

(** X6.  The same for [uploadVideo], with the ceiling of 512 MiB. *)
Theorem uploadVideo_io_order (env : Env) (path : string) (o : Outside) :
  log (snd (uploadVideo env path o)) = log o ++ [EvStat (resolve env path)]
  \/ (exists fileStats,
        fs_stat env (resolve env path) = Some fileStats
        /\ isFile fileStats = true
        /\ size fileStats <= 512 * 1024 * 1024
        /\ ((exists error,
               fs_readFile env (resolve env path) = Throw error
               /\ fst (uploadVideo env path o) = Throw error
               /\ log (snd (uploadVideo env path o))
                  = log o ++ [EvStat (resolve env path); EvReadFile (resolve env path)])
            \/ (exists bytes mimeType,
                  fs_readFile env (resolve env path) = Ok bytes
                  /\ log (snd (uploadVideo env path o))
                     = log o ++ [ EvStat (resolve env path);
                                  EvReadFile (resolve env path);
                                  EvRemote (UploadVideoMedia bytes mimeType
                                              (15 * 1024 * 1024 <? size fileStats)) ]))).
Proof.
  unfold uploadVideo, stat, readFile, call_remote, emit, try_catch, bind, ret, throw.
  destruct (fs_stat env (resolve env path)) as [fileStats |] eqn:Hstat;
    [| left; reflexivity].
  destruct (isFile fileStats) eqn:Hfile; cbn [negb]; [| left; reflexivity].
  destruct (VIDEO_MAX_SIZE <? size fileStats) eqn:Hsize; [left; reflexivity |].
  apply Z.ltb_ge in Hsize. unfold VIDEO_MAX_SIZE in Hsize.
  destruct (negb (truthy (extension (resolve env path))) || _); [left; reflexivity |].
  right. exists fileStats. repeat (split; [first [reflexivity | assumption] |]).
  destruct (fs_readFile env (resolve env path)) as [bytes | error]; cbn.
  - right. exists bytes. eexists. split; [reflexivity |].
    rewrite <- !app_assoc. reflexivity.
  - left. exists error. repeat split. rewrite <- !app_assoc. reflexivity.
Qed.

(** ** The extension of a path *)

Lemma lower_ascii_idempotent (c : ascii) : lower_ascii (lower_ascii c) = lower_ascii c.
Proof. destruct c as [[] [] [] [] [] [] [] []]; reflexivity. Qed.

Lemma toLowerCase_idempotent (s : string) : toLowerCase (toLowerCase s) = toLowerCase s.
Proof.
  induction s as [| c rest IH]; cbn; [reflexivity |].
  rewrite lower_ascii_idempotent, IH. reflexivity.
Qed.

Lemma split_segments_no_separator (sep : ascii) (s : string) :
  Forall (fun seg => ~ In sep (chars seg)) (split sep s).
Proof.
  induction s as [| c rest IH]; cbn.
  - constructor; [intros [] | constructor].
  - destruct (Ascii.eqb c sep) eqn:Hc.
    + constructor; [intros [] | exact IH].
    + destruct (split sep rest) as [| seg segs].
      * constructor; [| constructor]. cbn. intros [Heq | []].
        apply Ascii.eqb_neq in Hc. contradiction.
      * inversion IH as [| ? ? Hseg Hsegs]; subst.
        constructor; [| exact Hsegs]. cbn. intros [Heq | Hin].
        -- apply Ascii.eqb_neq in Hc. contradiction.
        -- contradiction.
Qed.

Lemma split_segments_lower_case (sep : ascii) (s : string) :
  toLowerCase s = s ->
  Forall (fun seg => toLowerCase seg = seg) (split sep s).
Proof.
  induction s as [| c rest IH]; cbn; intros Hlow.
  - constructor; [reflexivity | constructor].
  - injection Hlow as Hc Hrest. specialize (IH Hrest).
    destruct (Ascii.eqb c sep).
    + constructor; [reflexivity | exact IH].
    + destruct (split sep rest) as [| seg segs].
      * constructor; [cbn; rewrite Hc; reflexivity | constructor].
      * inversion IH as [| ? ? Hseg Hsegs]; subst.
        constructor; [cbn; rewrite Hc, Hseg; reflexivity | exact Hsegs].
Qed.

Lemma last_Forall {A} (P : A -> Prop) (l : list A) (x : A) :
  last l = Some x -> Forall P l -> P x.
Proof.
  intros Hlast Hall. apply last_Some in Hlast as [l' ->].
  apply Forall_app in Hall as [_ Hx]. inversion Hx; assumption.
Qed.

Lemma lower_ascii_dot (c : ascii) : lower_ascii c = "."%char -> c = "."%char.
Proof. destruct c as [[] [] [] [] [] [] [] []]; vm_compute; congruence. Qed.

Lemma toLowerCase_dot_free (s : string) :
  ~ In "."%char (chars s) -> ~ In "."%char (chars (toLowerCase s)).
Proof.
  induction s as [| c rest IH]; cbn; [tauto |].
  intros Hfree [Hdot | Hin].
  - apply Hfree. left. apply lower_ascii_dot, Hdot.
  - apply IH; [| exact Hin]. intros Hrest. apply Hfree. right. exact Hrest.
Qed.

Lemma lower_ascii_fixed_not_upper (c : ascii) :
  lower_ascii c = c -> ~ (65 <= N_of_ascii c <= 90)%N.
Proof. destruct c as [[] [] [] [] [] [] [] []]; vm_compute; intuition congruence. Qed.

Lemma toLowerCase_fixed_no_upper (s : string) :
  toLowerCase s = s -> Forall (fun c => ~ (65 <= N_of_ascii c <= 90)%N) (chars s).
Proof.
  induction s as [| c rest IH]; cbn; intros Hfixed; [constructor |].
  injection Hfixed as Hc Hrest.
  constructor; [apply lower_ascii_fixed_not_upper, Hc | apply IH, Hrest].
Qed.

(** X7.  Every path has an extension in the sense of the uploaders.  It
    contains no dot, it has no upper-case ASCII letter, and it does not
    depend on the case of the path.  For a path without dot it is the
    whole lowercased path; for a path that ends in a dot and a dot-free
    suffix it is that suffix, lowercased. *)
Theorem extension_shape (path : string) :
  exists ext,
    extension path = Some ext
    /\ ~ In "."%char (chars ext)
    /\ toLowerCase ext = ext
    /\ Forall (fun c => ~ (65 <= N_of_ascii c <= 90)%N) (chars ext)
    /\ extension (toLowerCase path) = Some ext
    /\ (~ In "."%char (chars path) -> ext = toLowerCase path)
    /\ (forall stem suffix,
          path = stem +:+ "." +:+ suffix ->
          ~ In "."%char (chars suffix) ->
          ext = toLowerCase suffix).
Proof.
  destruct (extension_is_some path) as [ext Hext].
  exists ext. split; [exact Hext |].
  assert (Hlower : toLowerCase ext = ext).
  { unfold extension, pop in Hext.
    exact (last_Forall (fun seg => toLowerCase seg = seg) _ _ Hext
             (split_segments_lower_case _ _ (toLowerCase_idempotent path))). }
  split; [| split; [exact Hlower | split; [| split; [| split]]]].
  - unfold extension, pop in Hext.
    exact (last_Forall (fun seg => ~ In "."%char (chars seg)) _ _ Hext
             (split_segments_no_separator _ _)).
  - apply toLowerCase_fixed_no_upper, Hlower.
  - unfold extension in *. rewrite toLowerCase_idempotent. exact Hext.
  - intros Hfree. unfold extension, pop in Hext.
    rewrite (split_dot_free "." (toLowerCase path) (toLowerCase_dot_free path Hfree))
      in Hext.
    cbn in Hext. congruence.
  - intros stem suffix Hpath Hfree. subst path.
    rewrite (extension_of_suffix stem suffix (toLowerCase_dot_free suffix Hfree))
      in Hext.
    congruence.
Qed.

(** ** Rate limiter: isolation, waiting and composition *)

(** A call stores nothing under the key of another group. *)
Lemma withRateLimit_keeps_others {T} (g g' : Endpoint) (fn : IO T) (w : World) :
  g <> g' ->
  reset_of (snd (withRateLimit g fn w)) g' = reset_of w g'.
Proof.
  intros Hne.
  destruct (withRateLimit_reset g g' fn w) as [Hsame | [Heq _]]; [exact Hsame |].
  congruence.
Qed.

(** X8.  A call on one endpoint group never changes what is stored for
    another group, whatever the operation does and however the call
    ends. *)
Theorem withRateLimit_other_groups {T} (g g' : Endpoint) (fn : IO T) (w : World) :
  g <> g' ->
  reset_of (snd (withRateLimit g fn w)) g' = reset_of w g'.
Proof. exact (withRateLimit_keeps_others g g' fn w). Qed.

Lemma withRateLimit_other_groups_witness :
  reset_of (snd (withRateLimit tweet (post "hello") (start t_boot))) reply
  = reset_of (start t_boot) reply.
Proof.
  apply (withRateLimit_other_groups tweet reply (post "hello") (start t_boot)).
  discriminate.
Defined.

(** The deferred start: with the stored instant ahead, by no more than a
    timer can take, the operation runs from the stored instant plus one
    second, after one timer. *)
Lemma withRateLimit_deferred {T} (g : Endpoint) (fn : IO T) (w : World) (resetTime : Z) :
  rateLimitResets w !! endpoint_name g = Some resetTime ->
  clock (outside w) < resetTime ->
  resetTime - clock (outside w) + 1000 <= TIMEOUT_MAX ->
  outside (snd (withRateLimit g fn w))
  = snd (fn (mkOutside (resetTime + 1000)
               (log (outside w) ++ [EvTimeout (resetTime - clock (outside w) + 1000)]))).
Proof.
  intros Hreset Hlt Hbound. rewrite withRateLimit_unfold. cbn zeta.
  unfold started_in, js_lt. rewrite Hreset.
  apply Z.ltb_lt in Hlt as Hltb. rewrite Hltb. cbn [default from_option id].
  rewrite timer_delay_in_range by lia.
  replace (clock (outside w) + (resetTime - clock (outside w) + 1000))
    with (resetTime + 1000) by lia.
  destruct (fn _) as [[result | error] o']; cbn; [reflexivity |].
  destruct (code_is_429 error); reflexivity.
Qed.

(** X9.  When the instant stored for the group is still ahead, and the
    remaining time plus 1000 ms is a delay a timer can take (at most
    [TIMEOUT_MAX], about 24.8 days), the call sets one timer for that
    delay and starts the operation only when it has fired, at the stored
    instant plus one second; the call is deferred, not refused. *)
Theorem withRateLimit_waits {T} (g : Endpoint) (fn : IO T) (w : World) (resetTime : Z) :
  rateLimitResets w !! endpoint_name g = Some resetTime ->
  clock (outside w) < resetTime ->
  resetTime - clock (outside w) + 1000 <= TIMEOUT_MAX ->
  outside (snd (withRateLimit g fn w))
  = snd (fn (mkOutside (resetTime + 1000)
               (log (outside w) ++ [EvTimeout (resetTime - clock (outside w) + 1000)]))).
Proof. exact (withRateLimit_deferred g fn w resetTime). Qed.

Lemma withRateLimit_waits_witness :
  outside (snd (withRateLimit tweet (post "hello")
                  (mkWorld (mkOutside t_boot [])
                           (<["tweet" := t_boot + 60000]> rateLimitResets_init))))
  = snd (post "hello"
           (mkOutside (t_boot + 60000 + 1000)
              (log (outside (mkWorld (mkOutside t_boot [])
                                     (<["tweet" := t_boot + 60000]> rateLimitResets_init)))
               ++ [EvTimeout (t_boot + 60000
                              - clock (outside (mkWorld (mkOutside t_boot [])
                                  (<["tweet" := t_boot + 60000]> rateLimitResets_init)))
                              + 1000)]))).
Proof.
  apply (withRateLimit_waits tweet (post "hello")
           (mkWorld (mkOutside t_boot [])
                    (<["tweet" := t_boot + 60000]> rateLimitResets_init))
           (t_boot + 60000)).
  - reflexivity.
  - cbn. lia.
  - cbn. unfold TIMEOUT_MAX. lia.
Defined.

(** X10.  When the instant stored for the group is not ahead of the clock
    (equal counts as not ahead), or nothing is stored, the operation starts
    at once: no timer is set. *)
Theorem withRateLimit_starts_at_once {T} (g : Endpoint) (fn : IO T) (w : World) :
  (forall resetTime,
      rateLimitResets w !! endpoint_name g = Some resetTime ->
      resetTime <= clock (outside w)) ->
  outside (snd (withRateLimit g fn w)) = snd (fn (outside w)).
Proof.
  intros Hpast. rewrite withRateLimit_unfold. cbn zeta.
  unfold started_in, js_lt.
  destruct (rateLimitResets w !! endpoint_name g) as [resetTime |].
  - specialize (Hpast resetTime eq_refl). apply Z.ltb_ge in Hpast. rewrite Hpast.
    destruct (fn _) as [[result | error] o']; cbn; [reflexivity |].
    destruct (code_is_429 error); reflexivity.
  - destruct (fn _) as [[result | error] o']; cbn; [reflexivity |].
    destruct (code_is_429 error); reflexivity.
Qed.

Lemma withRateLimit_starts_at_once_witness :
  outside (snd (withRateLimit tweet (post "hello")
                  (mkWorld (mkOutside t_boot [])
                           (<["tweet" := t_boot]> rateLimitResets_init))))
  = snd (post "hello"
           (outside (mkWorld (mkOutside t_boot [])
                             (<["tweet" := t_boot]> rateLimitResets_init)))).
Proof.
  apply (withRateLimit_starts_at_once tweet (post "hello")
           (mkWorld (mkOutside t_boot []) (<["tweet" := t_boot]> rateLimitResets_init))).
  intros resetTime Hreset. vm_compute in Hreset. injection Hreset as <-.
  cbn. unfold t_boot. lia.
Defined.

(** X11.  Two calls on the same group in a row.  If the first call ended
    in success or in a 429 rejection, its operation did not turn the clock
    back, and the second call is entered before the first one's entry
    instant plus 15 minutes, then the second operation starts exactly one
    second after that instant, after one timer. *)
Theorem second_call_waits_out_cooldown {T} (g : Endpoint) (fn1 fn2 : IO T)
        (w : World) (o1 : Outside) :
  (exists result, fn1 (started_in g w) = (Ok result, o1))
  \/ (exists error, fn1 (started_in g w) = (Throw error, o1)
                    /\ code_of error = CodeNum 429) ->
  clock (outside w) <= clock o1 ->
  clock o1 < clock (outside w) + fifteen_minutes ->
  outside (snd (withRateLimit g fn2 (snd (withRateLimit g fn1 w))))
  = snd (fn2 (mkOutside (clock (outside w) + fifteen_minutes + 1000)
                (log o1 ++ [EvTimeout (clock (outside w) + fifteen_minutes
                                       - clock o1 + 1000)]))).
Proof.
  intros Hfirst Hforward Hsoon.
  assert (Hw1 : snd (withRateLimit g fn1 w)
                = mkWorld o1 (<[endpoint_name g := clock (outside w) + fifteen_minutes]>
                                (rateLimitResets w))).
  { destruct Hfirst as [[result Hrun] | (error & Hrun & Hcode)].
    - rewrite (withRateLimit_success g fn1 w result o1 Hrun). reflexivity.
    - rewrite withRateLimit_unfold. cbn zeta.
      rewrite Hrun, (code_is_429_true error Hcode). reflexivity. }
  rewrite Hw1.
  refine (withRateLimit_deferred g fn2
            (mkWorld o1 (<[endpoint_name g := clock (outside w) + fifteen_minutes]>
                           (rateLimitResets w)))
            (clock (outside w) + fifteen_minutes)
            (lookup_insert_eq _ _ _) Hsoon _).
  cbn [outside clock]. unfold fifteen_minutes, TIMEOUT_MAX. lia.
Qed.

Lemma second_call_waits_out_cooldown_witness :
  outside (snd (withRateLimit tweet (post "hello")
                  (snd (withRateLimit tweet (post "throttled") (start t_boot)))))
  = snd (post "hello"
           (mkOutside (clock (outside (start t_boot)) + fifteen_minutes + 1000)
              ([EvRemote (TweetText "throttled")]
               ++ [EvTimeout (clock (outside (start t_boot)) + fifteen_minutes
                              - (t_boot + 120) + 1000)]))).
Proof.
  apply (second_call_waits_out_cooldown tweet (post "throttled") (post "hello")
           (start t_boot) (mkOutside (t_boot + 120) [EvRemote (TweetText "throttled")])).
  - right. exists (ErrorObject (CodeNum 429) "Too Many Requests").
    split; reflexivity.
  - cbn. lia.
  - vm_compute. reflexivity.
Defined.

(** X12.  A remote request made under the rate limiter is sent exactly
    once, after at most one timer, also when it is rejected with 429: the
    limiter never retries. *)
Theorem withRateLimit_single_attempt (env : Env) (g : Endpoint) (call : RemoteCall)
        (w : World) :
  remote_calls (log (outside (snd (withRateLimit g (call_remote env call) w))))
  = remote_calls (log (outside w)) ++ [call]
  /\ (length (timeouts (log (outside (snd (withRateLimit g (call_remote env call) w)))))
      <= length (timeouts (log (outside w))) + 1)%nat.
Proof.
  split; [apply withRateLimit_call_remote_log |].
  rewrite withRateLimit_unfold. cbn zeta.
  assert (Hstart : (length (timeouts (log (started_in g w)))
                    <= length (timeouts (log (outside w))) + 1)%nat).
  { unfold started_in. destruct (js_lt _ _); cbn; [| lia].
    unfold timeouts. rewrite omap_app, length_app. cbn. lia. }
  assert (Hcall : forall o,
             timeouts (log (snd (call_remote env call o))) = timeouts (log o)).
  { intros o. unfold call_remote, timeouts. cbn. rewrite omap_app. cbn.
    apply app_nil_r. }
  specialize (Hcall (started_in g w)).
  destruct (call_remote env call (started_in g w)) as [[data | error] o']; cbn in *.
  - rewrite Hcall. exact Hstart.
  - destruct (code_is_429 error); cbn; rewrite Hcall; exact Hstart.
Qed.

(** ** The handler as a whole *)

Lemma uploadImage_clock (env : Env) (path : string) (o : Outside) :
  remote_takes_time env -> clock o <= clock (snd (uploadImage env path o)).
Proof.
  intros Htime.
  unfold uploadImage, stat, readFile, call_remote, emit, try_catch, bind, ret, throw.
  run_upload; try lia.
  match goal with
  | |- context [elapsed (remote env ?call ?t)] => specialize (Htime call t); lia
  end.
Qed.

Lemma uploadVideo_clock (env : Env) (path : string) (o : Outside) :
  remote_takes_time env -> clock o <= clock (snd (uploadVideo env path o)).
Proof.
  intros Htime.
  unfold uploadVideo, stat, readFile, call_remote, emit, try_catch, bind, ret, throw.
  run_upload; try lia.
  match goal with
  | |- context [elapsed (remote env ?call ?t)] => specialize (Htime call t); lia
  end.
Qed.

Lemma ends_at_limiter_here (env : Env) (g : Endpoint) (w : World) :
  ends_at_limiter env g w w.
Proof. exists w. split; [reflexivity |]. split; [intros _; lia | left; reflexivity]. Qed.

Lemma ends_at_limiter_post (env : Env) (g : Endpoint) (w w1 : World)
      (b : bool) (call1 call2 : RemoteCall) (k : Json -> ToolResponse) :
  rateLimitResets w1 = rateLimitResets w ->
  (remote_takes_time env -> clock (outside w) <= clock (outside w1)) ->
  ends_at_limiter env g w
    (snd ((let* sent := withRateLimit g
                          (if b then call_remote env call1 else call_remote env call2) in
           ret (k sent)) w1)).
Proof.
  intros Hresets Hclock. exists w1. split; [exact Hresets |]. split; [exact Hclock |].
  right. exists (if b then call1 else call2). unfold bind, ret.
  destruct b;
    match goal with
    | |- context [withRateLimit g ?fn w1] =>
        destruct (withRateLimit g fn w1) as [[sent | error] w']; reflexivity
    end.
Qed.

Lemma bind_ret_l {S A B} (a : A) (k : A -> Eff S B) (s : S) :
  bind (ret a) k s = k a s.
Proof. reflexivity. Qed.

(** One attachment step of [create_tweet] and [reply_to_tweet]: the
    upload touches the outside only, and its failure ends the run. *)
Lemma attach_step (env : Env) (g : Endpoint) (w w0 : World) (upload : IO string)
      (label : string) (k : option string -> M ToolResponse) :
  rateLimitResets w0 = rateLimitResets w ->
  (remote_takes_time env -> clock (outside w) <= clock (outside w0)) ->
  (remote_takes_time env -> forall o, clock o <= clock (snd (upload o))) ->
  (forall mediaId w1,
      rateLimitResets w1 = rateLimitResets w ->
      (remote_takes_time env -> clock (outside w) <= clock (outside w1)) ->
      ends_at_limiter env g w (snd (k mediaId w1))) ->
  ends_at_limiter env g w
    (snd (bind
            (try_catch
               (let* id := lift upload in ret (Some id))
               (fun error => throw (McpError InvalidRequest (label +:+ message_of error))))
            k w0)).
Proof.
  intros Hresets Hclock Hupload Hk.
  unfold bind at 1, try_catch, bind at 1, lift, ret, throw.
  assert (Hlater : remote_takes_time env ->
                   clock (outside w) <= clock (snd (upload (outside w0)))).
  { intros Htime. specialize (Hupload Htime (outside w0)).
    specialize (Hclock Htime). lia. }
  destruct (upload (outside w0)) as [[id | error] o']; cbn in *.
  - apply Hk; assumption.
  - exists (mkWorld o' (rateLimitResets w0)).
    split; [exact Hresets |]. split; [exact Hlater | left; reflexivity].
Qed.

Lemma create_tweet_case_ends (env : Env) (args : ToolArguments) (w : World) :
  ends_at_limiter env tweet w (snd (create_tweet_case env args w)).
Proof.
  unfold create_tweet_case.
  destruct (truthy (image_path args)); destruct (truthy (video_path args));
    cbv iota; cbn [andb].
  - apply ends_at_limiter_here.
  - rewrite bind_ret_l.
    apply attach_step;
      [reflexivity | intros _; lia | intros Htime o; apply uploadImage_clock, Htime |].
    intros mediaId w1 Hresets Hclock. rewrite bind_ret_l.
    apply ends_at_limiter_post; assumption.
  - rewrite !bind_ret_l.
    apply attach_step;
      [reflexivity | intros _; lia | intros Htime o; apply uploadVideo_clock, Htime |].
    intros mediaId w1 Hresets Hclock.
    apply ends_at_limiter_post; assumption.
  - rewrite !bind_ret_l.
    apply ends_at_limiter_post; [reflexivity | intros _; lia].
Qed.

Lemma reply_to_tweet_case_ends (env : Env) (args : ToolArguments) (w : World) :
  ends_at_limiter env reply w (snd (reply_to_tweet_case env args w)).
Proof.
  unfold reply_to_tweet_case.
  destruct (truthy (image_path args)); destruct (truthy (video_path args));
    cbv iota; cbn [andb].
  - apply ends_at_limiter_here.
  - rewrite bind_ret_l.
    apply attach_step;
      [reflexivity | intros _; lia | intros Htime o; apply uploadImage_clock, Htime |].
    intros mediaId w1 Hresets Hclock. rewrite bind_ret_l.
    apply ends_at_limiter_post; assumption.
  - rewrite !bind_ret_l.
    apply attach_step;
      [reflexivity | intros _; lia | intros Htime o; apply uploadVideo_clock, Htime |].
    intros mediaId w1 Hresets Hclock.
    apply ends_at_limiter_post; assumption.
  - rewrite !bind_ret_l.
    apply ends_at_limiter_post; [reflexivity | intros _; lia].
Qed.

Lemma ends_at_limiter_call (env : Env) (g : Endpoint) (w : World)
      (call : RemoteCall) (k : Json -> ToolResponse) :
  ends_at_limiter env g w
    (snd ((let* sent := withRateLimit g (call_remote env call) in ret (k sent)) w)).
Proof.
  exists w. split; [reflexivity |]. split; [intros _; lia |].
  right. exists call. unfold bind, ret.
  destruct (withRateLimit g (call_remote env call) w) as [[sent | error] w'];
    reflexivity.
Qed.

(** Every run of the switch leaves the world as it was, or ends at the
    limiter of the group that belongs to the tool. *)
Lemma tool_switch_ends (env : Env) (request : CallToolRequest) (w : World) :
  snd (tool_switch env request w) = w
  \/ exists g, In (name request, g) tool_groups
               /\ ends_at_limiter env g w (snd (tool_switch env request w)).
Proof.
  unfold tool_switch.
  destruct (String.eqb (name request) "get_home_timeline") eqn:Hhome.
  { apply String.eqb_eq in Hhome. right. exists home. rewrite Hhome.
    split; [cbn; tauto | apply ends_at_limiter_call]. }
  destruct (String.eqb (name request) "create_tweet") eqn:Hcreate.
  { apply String.eqb_eq in Hcreate. right. exists tweet. rewrite Hcreate.
    split; [cbn; tauto | apply create_tweet_case_ends]. }
  destruct (String.eqb (name request) "reply_to_tweet") eqn:Hreply.
  { apply String.eqb_eq in Hreply. right. exists reply. rewrite Hreply.
    split; [cbn; tauto | apply reply_to_tweet_case_ends]. }
  destruct (String.eqb (name request) "delete_tweet") eqn:Hdelete.
  { apply String.eqb_eq in Hdelete. right. exists delete. rewrite Hdelete.
    split; [cbn; tauto | apply ends_at_limiter_call]. }
  left. reflexivity.
Qed.

Lemma tool_groups_functional (tool : string) (g g' : Endpoint) :
  In (tool, g) tool_groups -> In (tool, g') tool_groups -> g = g'.
Proof.
  cbn. intros Hg Hg'.
  repeat match goal with
         | H : _ \/ _ |- _ => destruct H
         | H : False |- _ => destruct H
         | H : (_, _) = (_, _) |- _ => injection H as ? ?; subst
         end; congruence.
Qed.

(** X13.  An invocation changes the rate-limit entry of no group but the
    one of its tool: [get_home_timeline] can only touch [home],
    [create_tweet] only [tweet], [reply_to_tweet] only [reply],
    [delete_tweet] only [delete]; an unknown tool touches none. *)
Theorem callTool_touches_own_group_only (env : Env) (request : CallToolRequest)
        (w : World) (g : Endpoint) :
  ~ In (name request, g) tool_groups ->
  reset_of (snd (callTool env request w)) g = reset_of w g.
Proof.
  intros Hother. rewrite callTool_state.
  destruct (tool_switch_ends env request w) as [-> | (g0 & Hg0 & Hends)];
    [reflexivity |].
  assert (Hne : g0 <> g) by (intros ->; contradiction).
  destruct Hends as (w1 & Hresets & _ & [-> | [call ->]]).
  - unfold reset_of. rewrite Hresets. reflexivity.
  - rewrite (withRateLimit_keeps_others g0 g _ w1 Hne).
    unfold reset_of. rewrite Hresets. reflexivity.
Qed.

Lemma callTool_touches_own_group_only_witness :
  reset_of (snd (callTool demo_env
                   (create_tweet_request (mkArguments None "hello" "" None None))
                   (start t_boot))) home
  = reset_of (start t_boot) home.
Proof.
  apply (callTool_touches_own_group_only demo_env
           (create_tweet_request (mkArguments None "hello" "" None None))
           (start t_boot) home).
  cbn. intros H.
  repeat match goal with
         | H : _ \/ _ |- _ => destruct H
         | H : False |- _ => destruct H
         | H : (_, _) = (_, _) |- _ => discriminate H
         end.
Defined.

(** X14.  Whatever the handler throws is an [McpError]: a failure that is
    not one already is wrapped before it leaves the handler. *)
Theorem callTool_throws_McpError_only (env : Env) (request : CallToolRequest)
        (w : World) :
  match fst (callTool env request w) with
  | Ok _ => True
  | Throw error => instanceof_McpError error = true
  end.
Proof.
  unfold callTool, try_catch.
  destruct (tool_switch env request w) as [[response | error] w']; cbn; [exact I |].
  destruct (instanceof_McpError error) eqn:Hmcp; cbn; [exact Hmcp | reflexivity].
Qed.

(** X15.  A tool name that is not advertised by the tool list is refused
    with [MethodNotFound] and the message [Unknown tool: ] followed by the
    name; nothing is logged and no rate-limit entry changes. *)
Theorem callTool_unknown_tool (env : Env) (request : CallToolRequest) (w : World) :
  ~ In (name request) (map tool_name listTools) ->
  callTool env request w
  = (Throw (McpError MethodNotFound ("Unknown tool: " +:+ name request)), w).
Proof.
  intros Hunknown. unfold callTool, tool_switch, try_catch.
  assert (Hneq : forall tool, In tool (map tool_name listTools) ->
                              String.eqb (name request) tool = false).
  { intros tool Hin. apply String.eqb_neq. intros Heq. apply Hunknown.
    rewrite Heq. exact Hin. }
  rewrite (Hneq "get_home_timeline") by (cbn; tauto).
  rewrite (Hneq "create_tweet") by (cbn; tauto).
  rewrite (Hneq "reply_to_tweet") by (cbn; tauto).
  rewrite (Hneq "delete_tweet") by (cbn; tauto).
  reflexivity.
Qed.

Lemma callTool_unknown_tool_witness :
  callTool demo_env (mkRequest "like_tweet" (mkArguments None "" "7" None None))
           (start t_boot)
  = (Throw (McpError MethodNotFound
              ("Unknown tool: "
               +:+ name (mkRequest "like_tweet" (mkArguments None "" "7" None None)))),
     start t_boot).
Proof.
  apply (callTool_unknown_tool demo_env
           (mkRequest "like_tweet" (mkArguments None "" "7" None None)) (start t_boot)).
  cbn. intros H.
  repeat match goal with
         | H : _ \/ _ |- _ => destruct H
         | H : False |- _ => destruct H
         | H : _ = _ |- _ => discriminate H
         end.
Defined.

(** ** Sessions: what holds after any sequence of invocations *)

Lemma withRateLimit_resets_shape {T} (g : Endpoint) (fn : IO T) (w : World) :
  rateLimitResets (snd (withRateLimit g fn w)) = rateLimitResets w
  \/ rateLimitResets (snd (withRateLimit g fn w))
     = <[endpoint_name g := clock (outside w) + fifteen_minutes]> (rateLimitResets w).
Proof.
  rewrite withRateLimit_unfold. cbn zeta.
  destruct (fn _) as [[result | error] o']; cbn; [right; reflexivity |].
  destruct (code_is_429 error); cbn; [right | left]; reflexivity.
Qed.

Lemma endpoint_name_is_key (g : Endpoint) :
  endpoint_name g ∈ ({["home"; "tweet"; "reply"; "delete"]} : gset string).
Proof. destruct g; cbn; set_solver. Qed.

Lemma serve_one_keeps_keys (env : Env) (r : Z * CallToolRequest) (w : World) :
  dom (rateLimitResets w) = ({["home"; "tweet"; "reply"; "delete"]} : gset string) ->
  dom (rateLimitResets (serve_one env r w))
  = ({["home"; "tweet"; "reply"; "delete"]} : gset string).
Proof.
  intros Hkeys. unfold serve_one. rewrite callTool_state.
  destruct (tool_switch_ends env (snd r) (pass_time (fst r) w))
    as [-> | (g & _ & w1 & Hresets & _ & [-> | [call ->]])].
  - exact Hkeys.
  - rewrite Hresets. exact Hkeys.
  - destruct (withRateLimit_resets_shape g (call_remote env call) w1) as [-> | ->].
    + rewrite Hresets. exact Hkeys.
    + rewrite dom_insert_L, Hresets. cbn [pass_time rateLimitResets]. rewrite Hkeys.
      apply subseteq_union_1_L, singleton_subseteq_l, endpoint_name_is_key.
Qed.

(** X16.  After any sequence of invocations served from start-up, with
    any environment and whatever each invocation returned or threw, the
    rate-limit object has exactly the four keys it was created with. *)
Theorem serve_keeps_keys (env : Env) (requests : list (Z * CallToolRequest)) (t0 : Z) :
  dom (rateLimitResets (serve env requests (start t0)))
  = ({["home"; "tweet"; "reply"; "delete"]} : gset string).
Proof.
  unfold serve.
  assert (Hstart : dom (rateLimitResets (start t0))
                   = ({["home"; "tweet"; "reply"; "delete"]} : gset string)).
  { cbn. unfold rateLimitResets_init. rewrite !dom_insert_L, dom_empty_L. set_solver. }
  revert Hstart. generalize (start t0).
  induction requests as [| r requests IH]; intros w Hkeys; cbn; [exact Hkeys |].
  apply IH, serve_one_keeps_keys, Hkeys.
Qed.

Lemma resets_inv_outside (t0 : Z) (w w1 : World) :
  rateLimitResets w1 = rateLimitResets w ->
  clock (outside w) <= clock (outside w1) ->
  resets_inv t0 w -> resets_inv t0 w1.
Proof.
  intros Hresets Hclock [Ht0 Hall]. split; [lia |].
  intros g. destruct (Hall g) as (v & Hv & Hst). exists v.
  rewrite Hresets. split; [exact Hv |].
  apply (stamped_later t0 (clock (outside w))); assumption.
Qed.

Lemma withRateLimit_monotone {T} (t0 : Z) (g0 g : Endpoint) (fn : IO T) (w : World)
      (v v' : Z) :
  0 <= t0 -> resets_inv t0 w ->
  reset_of w g = Some v -> reset_of (snd (withRateLimit g0 fn w)) g = Some v' ->
  v <= v'.
Proof.
  intros Ht0 [Hclock Hall] Hv Hv'.
  destruct (Hall g) as (v0 & Hv0 & Hst).
  unfold reset_of in Hv. rewrite Hv in Hv0. injection Hv0 as <-.
  destruct (withRateLimit_reset g0 g fn w) as [Hsame | [_ Hnew]].
  - rewrite Hsame in Hv'. unfold reset_of in Hv'. rewrite Hv in Hv'.
    injection Hv' as <-. lia.
  - rewrite Hnew in Hv'. injection Hv' as <-.
    destruct Hst as [-> | (t & Ht & ->)]; unfold fifteen_minutes; lia.
Qed.

Lemma serve_one_inv (env : Env) (t0 : Z) (r : Z * CallToolRequest) (w : World) :
  remote_takes_time env -> 0 <= fst r ->
  resets_inv t0 w -> resets_inv t0 (serve_one env r w).
Proof.
  intros Htime Hidle Hinv. unfold serve_one. rewrite callTool_state.
  apply (resets_inv_pass_time t0 (fst r) w Hidle) in Hinv.
  destruct (tool_switch_ends env (snd r) (pass_time (fst r) w))
    as [-> | (g & _ & w1 & Hresets & Hclock & [-> | [call ->]])].
  - exact Hinv.
  - apply (resets_inv_outside t0 _ w1 Hresets (Hclock Htime) Hinv).
  - apply resets_inv_withRateLimit.
    + apply call_remote_monotone. intros t. apply Htime.
    + apply (resets_inv_outside t0 _ w1 Hresets (Hclock Htime) Hinv).
Qed.

Lemma serve_inv (env : Env) (t0 : Z) (requests : list (Z * CallToolRequest)) (w : World) :
  remote_takes_time env -> Forall (fun r => 0 <= fst r) requests ->
  resets_inv t0 w -> resets_inv t0 (serve env requests w).
Proof.
  intros Htime Hidle. revert w.
  induction Hidle as [| r requests Hr _ IH]; intros w Hinv; cbn; [exact Hinv |].
  apply IH, serve_one_inv; assumption.
Qed.

(** X17.  In a session served from start-up with a clock that does not go
    back (non-negative gaps between invocations, remote requests that take
    non-negative time), one more invocation of any tool, with or without
    attachments and however it ends, never lowers the instant stored for
    any group. *)
Theorem serve_never_lowers_resets (env : Env) (t0 : Z)
        (requests : list (Z * CallToolRequest)) (r : Z * CallToolRequest)
        (g : Endpoint) :
  remote_takes_time env ->
  0 <= t0 ->
  Forall (fun r => 0 <= fst r) requests ->
  0 <= fst r ->
  exists v v',
    reset_of (serve env requests (start t0)) g = Some v
    /\ reset_of (serve_one env r (serve env requests (start t0))) g = Some v'
    /\ v <= v'.
Proof.
  intros Htime Ht0 Hidle Hr.
  pose proof (serve_inv env t0 requests (start t0) Htime Hidle (resets_inv_start t0))
    as Hinv.
  pose proof (serve_one_inv env t0 r _ Htime Hr Hinv) as Hinv'.
  destruct (proj2 Hinv g) as (v & Hv & _). destruct (proj2 Hinv' g) as (v' & Hv' & _).
  exists v, v'. split; [exact Hv |]. split; [exact Hv' |].
  revert Hv'. unfold serve_one. rewrite callTool_state.
  apply (resets_inv_pass_time t0 (fst r) _ Hr) in Hinv.
  destruct (tool_switch_ends env (snd r) (pass_time (fst r) (serve env requests (start t0))))
    as [-> | (g0 & _ & w1 & Hresets & Hclock & [-> | [call ->]])]; intros Hv'.
  - cbn in Hv'. rewrite Hv in Hv'. injection Hv' as <-. lia.
  - rewrite Hresets in Hv'. cbn in Hv'. rewrite Hv in Hv'. injection Hv' as <-. lia.
  - apply (withRateLimit_monotone t0 g0 g (call_remote env call) w1 v v' Ht0).
    + apply (resets_inv_outside t0 _ w1 Hresets (Hclock Htime) Hinv).
    + unfold reset_of. rewrite Hresets. exact Hv.
    + exact Hv'.
Qed.

Lemma demo_env_takes_time : remote_takes_time demo_env.
Proof.
  intros call t. destruct call; cbn; try lia; unfold demo_post;
    repeat match goal with
           | |- context [if ?b then _ else _] => destruct b
           end; cbn; lia.
Qed.

Lemma serve_never_lowers_resets_witness :
  exists v v',
    reset_of (serve demo_env
                [ (0, create_tweet_request
                        (mkArguments None "hello" "" (Some "/tmp/cat.PNG") None));
                  (1000, get_home_timeline_request (mkArguments None "" "" None None)) ]
                (start t_boot)) tweet = Some v
    /\ reset_of (serve_one demo_env
                   (2000, create_tweet_request
                            (mkArguments None "throttled" "" None None))
                   (serve demo_env
                      [ (0, create_tweet_request
                              (mkArguments None "hello" "" (Some "/tmp/cat.PNG") None));
                        (1000, get_home_timeline_request
                                 (mkArguments None "" "" None None)) ]
                      (start t_boot))) tweet = Some v'
    /\ v <= v'.
Proof.
  apply (serve_never_lowers_resets demo_env t_boot
           [ (0, create_tweet_request
                   (mkArguments None "hello" "" (Some "/tmp/cat.PNG") None));
             (1000, get_home_timeline_request (mkArguments None "" "" None None)) ]
           (2000, create_tweet_request (mkArguments None "throttled" "" None None))
           tweet).
  - exact demo_env_takes_time.
  - unfold t_boot. lia.
  - repeat constructor; cbn; lia.
  - cbn. lia.
Defined.

(** ** Invocations without attachment: the three outcomes *)

(** Without attachment a run of the switch is the throttled remote request
    followed by the shaping of the response. *)
Lemma tool_switch_plain (env : Env) (request : CallToolRequest) (w : World)
      (g : Endpoint) (call : RemoteCall) :
  plain_call request = Some (g, call) ->
  tool_switch env request w
  = (let* sent := withRateLimit g (call_remote env call) in ret (respond env sent)) w.
Proof.
  unfold plain_call, tool_switch. cbn zeta.
  destruct (String.eqb (name request) "get_home_timeline").
  { intros [= <- <-]. reflexivity. }
  destruct (String.eqb (name request) "create_tweet").
  { unfold create_tweet_case.
    destruct (truthy (image_path (arguments request)));
      destruct (truthy (video_path (arguments request))); cbn [orb andb];
      intros [= <- <-]. reflexivity. }
  destruct (String.eqb (name request) "reply_to_tweet").
  { unfold reply_to_tweet_case.
    destruct (truthy (image_path (arguments request)));
      destruct (truthy (video_path (arguments request))); cbn [orb andb];
      intros [= <- <-]. reflexivity. }
  destruct (String.eqb (name request) "delete_tweet").
  { intros [= <- <-]. reflexivity. }
  intros [=].
Qed.







(** ** Invocations with an attachment *)

(** X21.  When the upload of the image fails, for whatever reason
    (validation, read, or the remote client, a 429 included),
    [create_tweet] and [reply_to_tweet] fail with [InvalidRequest] and the
    message [Failed to upload image: ] followed by the original message.
    The world is left as the upload left it: nothing is posted, not even
    the text alone, and no rate-limit entry changes. *)
Theorem image_upload_failure_aborts (env : Env) (args : ToolArguments) (w : World)
        (path : string) (error : Thrown) (o' : Outside) :
  image_path args = Some path -> path <> "" ->
  truthy (video_path args) = false ->
  uploadImage env path (outside w) = (Throw error, o') ->
  callTool env (create_tweet_request args) w
  = (Throw (McpError InvalidRequest ("Failed to upload image: " +:+ message_of error)),
     mkWorld o' (rateLimitResets w))
  /\ callTool env (reply_to_tweet_request args) w
     = (Throw (McpError InvalidRequest ("Failed to upload image: " +:+ message_of error)),
        mkWorld o' (rateLimitResets w)).
Proof.
  intros Himage Hne Hvideo Hupload.
  unfold callTool, tool_switch, create_tweet_request, reply_to_tweet_request.
  cbn [name arguments String.eqb Ascii.eqb Bool.eqb].
  unfold create_tweet_case, reply_to_tweet_case.
  rewrite Himage, Hvideo, (truthy_Some path Hne). cbn [andb default from_option id].
  unfold try_catch, bind, lift, ret, throw. rewrite Hupload.
  split; reflexivity.
Qed.

Lemma image_upload_failure_aborts_witness :
  callTool demo_env
    (create_tweet_request (mkArguments None "hello" "42" (Some "/tmp/notes.txt") None))
    (start t_boot)
  = (Throw (McpError InvalidRequest
       ("Failed to upload image: "
        +:+ message_of
              (Error "Unsupported file format. Supported formats: png, jpg, jpeg, gif, webp"))),
     mkWorld (mkOutside t_boot [EvStat "/tmp/notes.txt"]) (rateLimitResets (start t_boot)))
  /\ callTool demo_env
       (reply_to_tweet_request (mkArguments None "hello" "42" (Some "/tmp/notes.txt") None))
       (start t_boot)
     = (Throw (McpError InvalidRequest
          ("Failed to upload image: "
           +:+ message_of
                 (Error "Unsupported file format. Supported formats: png, jpg, jpeg, gif, webp"))),
        mkWorld (mkOutside t_boot [EvStat "/tmp/notes.txt"]) (rateLimitResets (start t_boot))).
Proof.
  apply (image_upload_failure_aborts demo_env
           (mkArguments None "hello" "42" (Some "/tmp/notes.txt") None) (start t_boot)
           "/tmp/notes.txt").
  - reflexivity.
  - discriminate.
  - reflexivity.
  - reflexivity.
Defined.

(** X22.  The same when the upload of the video fails, with the message
    [Failed to upload video: ]. *)
Theorem video_upload_failure_aborts (env : Env) (args : ToolArguments) (w : World)
        (path : string) (error : Thrown) (o' : Outside) :
  truthy (image_path args) = false ->
  video_path args = Some path -> path <> "" ->
  uploadVideo env path (outside w) = (Throw error, o') ->
  callTool env (create_tweet_request args) w
  = (Throw (McpError InvalidRequest ("Failed to upload video: " +:+ message_of error)),
     mkWorld o' (rateLimitResets w))
  /\ callTool env (reply_to_tweet_request args) w
     = (Throw (McpError InvalidRequest ("Failed to upload video: " +:+ message_of error)),
        mkWorld o' (rateLimitResets w)).
Proof.
  intros Himage Hvideo Hne Hupload.
  unfold callTool, tool_switch, create_tweet_request, reply_to_tweet_request.
  cbn [name arguments String.eqb Ascii.eqb Bool.eqb].
  unfold create_tweet_case, reply_to_tweet_case.
  rewrite Himage, Hvideo, (truthy_Some path Hne). cbn [andb default from_option id].
  unfold try_catch, bind, lift, ret, throw. rewrite Hupload.
  split; reflexivity.
Qed.

Lemma video_upload_failure_aborts_witness :
  callTool archive_env
    (create_tweet_request (mkArguments None "hello" "42" None (Some "/data/talk.WebM")))
    (start t_boot)
  = (Throw (McpError InvalidRequest
       ("Failed to upload video: " +:+ message_of (ErrorObject (CodeNum 401) "Unauthorized"))),
     mkWorld (mkOutside (t_boot + 700)
                [ EvStat "/data/talk.WebM"; EvReadFile "/data/talk.WebM";
                  EvRemote (UploadVideoMedia "bytes of /data/talk.WebM"
                              (JsString "video/webm") true) ])
             (rateLimitResets (start t_boot)))
  /\ callTool archive_env
       (reply_to_tweet_request (mkArguments None "hello" "42" None (Some "/data/talk.WebM")))
       (start t_boot)
     = (Throw (McpError InvalidRequest
          ("Failed to upload video: "
           +:+ message_of (ErrorObject (CodeNum 401) "Unauthorized"))),
        mkWorld (mkOutside (t_boot + 700)
                   [ EvStat "/data/talk.WebM"; EvReadFile "/data/talk.WebM";
                     EvRemote (UploadVideoMedia "bytes of /data/talk.WebM"
                                 (JsString "video/webm") true) ])
                (rateLimitResets (start t_boot))).
Proof.
  apply (video_upload_failure_aborts archive_env
           (mkArguments None "hello" "42" None (Some "/data/talk.WebM")) (start t_boot)
           "/data/talk.WebM").
  - reflexivity.
  - reflexivity.
  - discriminate.
  - vm_compute. reflexivity.
Defined.

(** X23.  When the upload of the image succeeds, the post is throttled
    from the world the upload left (the limiter reads the clock after the
    upload) and carries the media handle the upload returned; if that
    handle is the empty string the text is posted without media. *)
Theorem uploaded_image_is_attached (env : Env) (args : ToolArguments) (w : World)
        (path handle : string) (o' : Outside) :
  image_path args = Some path -> path <> "" ->
  truthy (video_path args) = false ->
  uploadImage env path (outside w) = (Ok handle, o') ->
  snd (callTool env (create_tweet_request args) w)
  = snd (withRateLimit tweet
           (call_remote env
              (if String.eqb handle "" then TweetText (text args)
               else TweetMedia (text args) handle))
           (mkWorld o' (rateLimitResets w)))
  /\ snd (callTool env (reply_to_tweet_request args) w)
     = snd (withRateLimit reply
              (call_remote env
                 (if String.eqb handle "" then ReplyText (text args) (tweet_id args)
                  else ReplyMedia (text args) (tweet_id args) handle))
              (mkWorld o' (rateLimitResets w))).
Proof.
  intros Himage Hne Hvideo Hupload.
  rewrite !callTool_state.
  unfold tool_switch, create_tweet_request, reply_to_tweet_request.
  cbn [name arguments String.eqb Ascii.eqb Bool.eqb].
  unfold create_tweet_case, reply_to_tweet_case.
  rewrite Himage, Hvideo, (truthy_Some path Hne). cbn [andb default from_option id].
  unfold try_catch, bind, lift, ret, throw. rewrite Hupload.
  cbn [truthy default from_option id]. unfold truthy_string.
  destruct (String.eqb handle ""); cbn [negb];
    split;
    match goal with
    | |- context [withRateLimit ?g ?fn ?w0] =>
        destruct (withRateLimit g fn w0) as [[sent | error] w']; reflexivity
    end.
Qed.

Lemma uploaded_image_is_attached_witness :
  snd (callTool demo_env
         (create_tweet_request (mkArguments None "hello" "42" (Some "/tmp/cat.PNG") None))
         (start t_boot))
  = snd (withRateLimit tweet
           (call_remote demo_env
              (if String.eqb "media-1" ""
               then TweetText (text (mkArguments None "hello" "42" (Some "/tmp/cat.PNG") None))
               else TweetMedia
                      (text (mkArguments None "hello" "42" (Some "/tmp/cat.PNG") None))
                      "media-1"))
           (mkWorld (mkOutside (t_boot + 400)
                       [ EvStat "/tmp/cat.PNG"; EvReadFile "/tmp/cat.PNG";
                         EvRemote (UploadImageMedia "bytes of /tmp/cat.PNG"
                                     (JsString "image/png")) ])
                    (rateLimitResets (start t_boot))))
  /\ snd (callTool demo_env
            (reply_to_tweet_request
               (mkArguments None "hello" "42" (Some "/tmp/cat.PNG") None))
            (start t_boot))
     = snd (withRateLimit reply
              (call_remote demo_env
                 (if String.eqb "media-1" ""
                  then ReplyText
                         (text (mkArguments None "hello" "42" (Some "/tmp/cat.PNG") None))
                         (tweet_id (mkArguments None "hello" "42" (Some "/tmp/cat.PNG") None))
                  else ReplyMedia
                         (text (mkArguments None "hello" "42" (Some "/tmp/cat.PNG") None))
                         (tweet_id (mkArguments None "hello" "42" (Some "/tmp/cat.PNG") None))
                         "media-1"))
              (mkWorld (mkOutside (t_boot + 400)
                          [ EvStat "/tmp/cat.PNG"; EvReadFile "/tmp/cat.PNG";
                            EvRemote (UploadImageMedia "bytes of /tmp/cat.PNG"
                                        (JsString "image/png")) ])
                       (rateLimitResets (start t_boot)))).
Proof.
  apply (uploaded_image_is_attached demo_env
           (mkArguments None "hello" "42" (Some "/tmp/cat.PNG") None) (start t_boot)
           "/tmp/cat.PNG" "media-1").
  - reflexivity.
  - discriminate.
  - reflexivity.
  - vm_compute. reflexivity.
Defined.

(** X24.  The same for a video attachment. *)
Theorem uploaded_video_is_attached (env : Env) (args : ToolArguments) (w : World)
        (path handle : string) (o' : Outside) :
  truthy (image_path args) = false ->
  video_path args = Some path -> path <> "" ->
  uploadVideo env path (outside w) = (Ok handle, o') ->
  snd (callTool env (create_tweet_request args) w)
  = snd (withRateLimit tweet
           (call_remote env
              (if String.eqb handle "" then TweetText (text args)
               else TweetMedia (text args) handle))
           (mkWorld o' (rateLimitResets w)))
  /\ snd (callTool env (reply_to_tweet_request args) w)
     = snd (withRateLimit reply
              (call_remote env
                 (if String.eqb handle "" then ReplyText (text args) (tweet_id args)
                  else ReplyMedia (text args) (tweet_id args) handle))
              (mkWorld o' (rateLimitResets w))).
Proof.
  intros Himage Hvideo Hne Hupload.
  rewrite !callTool_state.
  unfold tool_switch, create_tweet_request, reply_to_tweet_request.
  cbn [name arguments String.eqb Ascii.eqb Bool.eqb].
  unfold create_tweet_case, reply_to_tweet_case.
  rewrite Himage, Hvideo, (truthy_Some path Hne). cbn [andb default from_option id].
  unfold try_catch, bind, lift, ret, throw. rewrite Hupload.
  cbn [truthy default from_option id]. unfold truthy_string.
  destruct (String.eqb handle ""); cbn [negb];
    split;
    match goal with
    | |- context [withRateLimit ?g ?fn ?w0] =>
        destruct (withRateLimit g fn w0) as [[sent | error] w']; reflexivity
    end.
Qed.

Lemma uploaded_video_is_attached_witness :
  snd (callTool demo_env
         (create_tweet_request (mkArguments None "hello" "42" None (Some "/tmp/clip.mp4")))
         (start t_boot))
  = snd (withRateLimit tweet
           (call_remote demo_env
              (if String.eqb "media-2" ""
               then TweetText (text (mkArguments None "hello" "42" None (Some "/tmp/clip.mp4")))
               else TweetMedia
                      (text (mkArguments None "hello" "42" None (Some "/tmp/clip.mp4")))
                      "media-2"))
           (mkWorld (mkOutside (t_boot + 900)
                       [ EvStat "/tmp/clip.mp4"; EvReadFile "/tmp/clip.mp4";
                         EvRemote (UploadVideoMedia "bytes of /tmp/clip.mp4"
                                     (JsString "video/mp4") false) ])
                    (rateLimitResets (start t_boot))))
  /\ snd (callTool demo_env
            (reply_to_tweet_request
               (mkArguments None "hello" "42" None (Some "/tmp/clip.mp4")))
            (start t_boot))
     = snd (withRateLimit reply
              (call_remote demo_env
                 (if String.eqb "media-2" ""
                  then ReplyText
                         (text (mkArguments None "hello" "42" None (Some "/tmp/clip.mp4")))
                         (tweet_id (mkArguments None "hello" "42" None (Some "/tmp/clip.mp4")))
                  else ReplyMedia
                         (text (mkArguments None "hello" "42" None (Some "/tmp/clip.mp4")))
                         (tweet_id (mkArguments None "hello" "42" None (Some "/tmp/clip.mp4")))
                         "media-2"))
              (mkWorld (mkOutside (t_boot + 900)
                          [ EvStat "/tmp/clip.mp4"; EvReadFile "/tmp/clip.mp4";
                            EvRemote (UploadVideoMedia "bytes of /tmp/clip.mp4"
                                        (JsString "video/mp4") false) ])
                       (rateLimitResets (start t_boot)))).
Proof.
  apply (uploaded_video_is_attached demo_env
           (mkArguments None "hello" "42" None (Some "/tmp/clip.mp4")) (start t_boot)
           "/tmp/clip.mp4" "media-2").
  - reflexivity.
  - reflexivity.
  - discriminate.
  - vm_compute. reflexivity.
Defined.

(** ** The timeline limit *)

(** X25.  A requested [limit] of at most 5 is forwarded as it is: the
    handler sets no lower bound, so 0 and negative limits reach the remote
    client although the advertised schema gives 1 as minimum. *)
Theorem get_home_timeline_forwards_small_limits (env : Env) (args : ToolArguments)
        (w : World) (requested : Z) :
  limit args = Some requested ->
  requested <= 5 ->
  remote_calls (log (outside (snd (callTool env (get_home_timeline_request args) w))))
  = remote_calls (log (outside w)) ++ [HomeTimeline requested].
Proof.
  intros Hlimit Hsmall. rewrite callTool_state.
  rewrite (tool_switch_plain env (get_home_timeline_request args) w home
             (HomeTimeline requested)).
  - unfold bind, ret.
    pose proof (withRateLimit_call_remote_log env home (HomeTimeline requested) w)
      as [Hlog _].
    destruct (withRateLimit home _ w) as [[timeline | error] w']; exact Hlog.
  - unfold plain_call, get_home_timeline_request. cbn. rewrite Hlimit. cbn.
    rewrite Z.min_l by exact Hsmall. reflexivity.
Qed.

Lemma get_home_timeline_forwards_small_limits_witness :
  remote_calls (log (outside (snd
    (callTool demo_env
       (get_home_timeline_request (mkArguments (Some (-3)) "" "" None None))
       (start t_boot)))))
  = remote_calls (log (outside (start t_boot))) ++ [HomeTimeline (-3)].
Proof.
  apply (get_home_timeline_forwards_small_limits demo_env
           (mkArguments (Some (-3)) "" "" None None) (start t_boot) (-3)).
  - reflexivity.
  - lia.
Defined.
